(** * causaliq-workflow: the workflow executor, verified against its specification

    A shallow embedding of [src/causaliq_workflow/workflow.py]
    ([WorkflowExecutor] and its helpers) together with the collaborators it
    consumes, and the theorems that settle the specification's claims about
    matrix expansion, template-variable extraction and validation, workflow
    parsing and the task-status taxonomy. *)

From Stdlib Require Import Ascii.
From stdpp Require Import base list strings gmap sets sorting.

(** ** Python values

    Workflow documents are the trees a YAML loader produces: scalars, lists
    and insertion-ordered dictionaries with string keys.  A [str] is a Rocq
    [string] (its UTF-8 bytes, whose bytewise order is the code-point order
    Python compares by). *)

#[local] Unset Elimination Schemes.
Inductive pyval : Type :=
| PNone
| PBool (b : bool)
| PInt (z : Z)
| PStr (s : string)
| PList (items : list pyval)
| PDict (entries : list (string * pyval)).
#[local] Set Elimination Schemes.

(** A Python [dict] keeps its keys in insertion order, so it is an association
    list; a dictionary object never holds a key twice ([dict_wf]). *)
Abbreviation dict V := (list (string * V)).

Definition dict_keys {V} (d : dict V) : list string := d.*1.
Definition dict_values {V} (d : dict V) : list V := d.*2.
Definition dict_wf {V} (d : dict V) : Prop := NoDup (dict_keys d).

(** [d[k]], [None] standing for the [KeyError]. *)
Fixpoint dict_get {V} (k : string) (d : dict V) : option V :=
  match d with
  | [] => None
  | (k', v) :: d' => if decide (k = k') then Some v else dict_get k d'
  end.

(** [d[k] = v]: an existing key keeps its position, a new key goes last. *)
Fixpoint dict_set {V} (k : string) (v : V) (d : dict V) : dict V :=
  match d with
  | [] => [(k, v)]
  | (k', v') :: d' =>
      if decide (k = k') then (k', v) :: d' else (k', v') :: dict_set k v d'
  end.

(** [dict(pairs)]: the pairs are inserted one after the other. *)
Definition dict_of_pairs {V} (pairs : list (string * V)) : dict V :=
  foldl (fun d kv => dict_set kv.1 kv.2 d) [] pairs.

(** ** Exceptions

    The instances of [Exception]: the two classes of the package and any
    other class, kept by name.  These are what [except Exception] catches;
    the interpreter's exit signals, which derive from [BaseException] only,
    are outside the model. *)

Inductive exn : Type :=
| WorkflowValidationError (message schema_path : string)
| WorkflowExecutionError (message : string)
| PyException (cls message : string).

(** [str(e)], what an f-string interpolates. *)
Definition exn_str (e : exn) : string :=
  match e with
  | WorkflowValidationError m _ => m
  | WorkflowExecutionError m => m
  | PyException _ m => m
  end.

Inductive result (A : Type) : Type :=
| Ok (a : A)
| Raise (e : exn).
Arguments Ok {A} a.
Arguments Raise {A} e.

(** ** [itertools.product]

    The library documents [product] on the pools [iterables] as equivalent to
<<
    pools = [tuple(pool) for pool in iterables]
    result = [[]]
    for pool in pools:
        result = [x+[y] for x in result for y in pool]
    for prod in result: yield tuple(prod)
>> *)
Definition product_step (result : list (list pyval)) (pool : list pyval)
  : list (list pyval) :=
  flat_map (fun x => map (fun y => x ++ [y]) pool) result.

Definition itertools_product (pools : list (list pyval)) : list (list pyval) :=
  foldl product_step [[]] pools.

(** ** [WorkflowExecutor.expand_matrix]

    The function calls [itertools.product] inside a [try] block that turns
    any exception into a [WorkflowExecutionError].  The product function is
    looked up in the [itertools] module at call time, so it is a collaborator:
    [product n pools] is what its invocation number [n] returns or raises
    (a value list that raises while it is consumed raises there, since the
    product reads every pool when it is called).  The executor threads the
    number of invocations made so far. *)
Section ExpandMatrix.

Variable product : nat -> list (list pyval) -> result (list (list pyval)).

Definition expand_matrix_with (matrix : dict (list pyval)) (calls : nat)
  : result (list (dict pyval)) * nat :=
  match matrix with
  | [] => (Ok [[]], calls)
  | _ :: _ =>
      let variables := dict_keys matrix in
      let value_lists := dict_values matrix in
      match product calls value_lists with
      | Ok combinations =>
          let jobs :=
            map (fun combination => dict_of_pairs (zip variables combination))
                combinations in
          (Ok jobs, S calls)
      | Raise e =>
          (Raise (WorkflowExecutionError
                    ("Matrix expansion failed: " +:+ exn_str e)), S calls)
      end
  end.

End ExpandMatrix.

(** The genuine [itertools.product] returns the same combinations at every
    invocation and never raises on lists. *)
Definition product_call (_ : nat) (pools : list (list pyval))
  : result (list (list pyval)) :=
  Ok (itertools_product pools).

Definition expand_matrix (matrix : dict (list pyval))
  : result (list (dict pyval)) :=
  (expand_matrix_with product_call matrix 0).1.

(** ** The order of the cartesian product *)

(** The product written by recursion on the pools: the first pool is the
    outer loop, so the last pool varies fastest. *)
Fixpoint lex_product (pools : list (list pyval)) : list (list pyval) :=
  match pools with
  | [] => [[]]
  | pool :: pools' => flat_map (fun x => map (cons x) (lex_product pools')) pool
  end.

(** The number of combinations of pools of the given sizes. *)
Definition product_size (sizes : list nat) : nat := foldr Nat.mul 1 sizes.

(** How many consecutive jobs share the value of the variable at position
    [j]: the number of combinations of the variables listed after it. *)
Definition stride {V} (j : nat) (matrix : dict (list V)) : nat :=
  product_size (length <$> drop (S j) (dict_values matrix)).

(** The test suite's two-variable matrix and a three-variable one. *)
Definition algorithm_dataset_matrix : dict (list pyval) :=
  [("algorithm", [PStr "pc"; PStr "ges"]);
   ("dataset", [PStr "asia"; PStr "cancer"])].

Definition dataset_algorithm_alpha_matrix : dict (list pyval) :=
  [("dataset", [PStr "asia"; PStr "cancer"; PStr "alarm"]);
   ("algorithm", [PStr "pc"; PStr "ges"]);
   ("alpha", [PInt 1; PInt 5])].

(** A patched [itertools.product] in the manner of the test suite: the first
    invocation raises a [RuntimeError], any later one would succeed. *)
Definition fake_product (n : nat) (pools : list (list pyval))
  : result (list (list pyval)) :=
  match n with
  | 0 => Raise (PyException "RuntimeError" "Unexpected error in itertools")
  | S _ => Ok (itertools_product pools)
  end.

(** ** Template variables: [re.findall] on the placeholder pattern *)

(** The pattern is: two opening braces, then the captured group (one
    character of the class a-zA-Z_ followed by any number of characters of the
    class a-zA-Z0-9_-), then two closing braces.  All of its characters are
    ASCII, and the bytes of a non-ASCII code point are none of them, so
    matching the bytes is matching the code points.  Its character classes: *)
Definition in_range (lo hi c : ascii) : bool :=
  (nat_of_ascii lo <=? nat_of_ascii c) && (nat_of_ascii c <=? nat_of_ascii hi).

Definition ident_start (c : ascii) : bool :=
  in_range "a" "z" c || in_range "A" "Z" c || Ascii.eqb c "_".

Definition ident_char (c : ascii) : bool :=
  in_range "a" "z" c || in_range "A" "Z" c || in_range "0" "9" c
  || Ascii.eqb c "_" || Ascii.eqb c "-".

(** A literal of the pattern: the text after it when [s] starts with it. *)
Fixpoint strip_prefix (literal s : string) : option string :=
  match literal, s with
  | "", _ => Some s
  | String a literal', String b s' =>
      if Ascii.eqb a b then strip_prefix literal' s' else None
  | String _ _, "" => None
  end.

(** The greedy star over [ident_char]: the longest run of identifier
    characters at the start of [s], and the text after it. *)
Fixpoint span_ident (s : string) : string * string :=
  match s with
  | String c s' =>
      if ident_char c
      then let (name, rest) := span_ident s' in (String c name, rest)
      else ("", s)
  | "" => ("", "")
  end.

(** The pattern tried at the start of [s]: the captured name and the text
    after the match.  The star never has to give characters back, since the
    closing brace that must follow it is no identifier character. *)
Definition match_placeholder (s : string) : option (string * string) :=
  match strip_prefix "{{" s with
  | Some (String c s1) =>
      if ident_start c
      then let (name, rest) := span_ident s1 in
           match strip_prefix "}}" rest with
           | Some rest' => Some (String c name, rest')
           | None => None
           end
      else None
  | _ => None
  end.

(** [re.findall]: the matches are searched from left to right and do not
    overlap; after a match the search resumes behind it, so the characters
    of the match still ahead are skipped. *)
Fixpoint findall_from (skip : nat) (s : string) : list string :=
  match s with
  | "" => []
  | String _ s' =>
      match skip with
      | S skip' => findall_from skip' s'
      | 0 =>
          match match_placeholder s with
          | Some (name, _) => name :: findall_from (String.length name + 3) s'
          | None => findall_from 0 s'
          end
      end
  end.

Definition findall (s : string) : list string := findall_from 0 s.

(** [WorkflowExecutor._extract_template_variables] *)
Definition _extract_template_variables (text : pyval) : gset string :=
  match text with
  | PStr s => list_to_set (findall s)
  | _ => ∅
  end.

(** The names the pattern captures: a letter or underscore followed by
    letters, digits, underscores and hyphens. *)
Fixpoint all_chars (p : ascii -> bool) (s : string) : bool :=
  match s with
  | "" => true
  | String c s' => p c && all_chars p s'
  end.

Definition is_identifier (x : string) : bool :=
  match x with
  | "" => false
  | String c x' => ident_start c && all_chars ident_char x'
  end.

(** [x] is written as a placeholder somewhere in [s]. *)
Definition placeholder_in (x s : string) : Prop :=
  is_identifier x = true
  /\ exists before after, s = before +:+ "{{" +:+ x +:+ "}}" +:+ after.

(** No match starts at any of the first [k] positions of [t]. *)
Fixpoint quiet (k : nat) (t : string) : Prop :=
  match k with
  | 0 => True
  | S k' =>
      match_placeholder t = None
      /\ match t with
         | "" => True
         | String _ t' => quiet k' t'
         end
  end.

Definition not_open_brace (c : ascii) : bool := negb (Ascii.eqb c "{").

(** ** Template validation and workflow parsing *)

#[global] Instance result_ret : MRet result := fun A a => Ok a.
#[global] Instance result_bind : MBind result :=
  fun A B f m => match m with Ok a => f a | Raise e => Raise e end.

(** [WorkflowExecutor._collect_template_variables]: the set passed in is
    updated in place, so the model returns the updated set. *)
Fixpoint _collect_template_variables (obj : pyval) (used_variables : gset string)
  : gset string :=
  match obj with
  | PDict entries =>
      foldl (fun used '(_, value) => _collect_template_variables value used)
            used_variables entries
  | PList items =>
      foldl (fun used item => _collect_template_variables item used)
            used_variables items
  | PStr _ => used_variables ∪ _extract_template_variables obj
  | _ => used_variables
  end.

(** [type(v).__name__] *)
Definition type_name (v : pyval) : string :=
  match v with
  | PNone => "NoneType"
  | PBool _ => "bool"
  | PInt _ => "int"
  | PStr _ => "str"
  | PList _ => "list"
  | PDict _ => "dict"
  end.

(** [v.keys()]: only a dictionary has the method. *)
Definition py_keys (v : pyval) : result (list string) :=
  match v with
  | PDict entries => Ok (dict_keys entries)
  | _ => Raise (PyException "AttributeError"
                  ("'" +:+ type_name v +:+ "' object has no attribute 'keys'"))
  end.

(** [sorted] on a set of strings: the elements, met in the set's own order,
    merge-sorted by the lexicographic order of [str]. *)
Definition sorted (xs : gset string) : list string :=
  merge_sort String.le (elements xs).

Fixpoint join (sep : string) (parts : list string) : string :=
  match parts with
  | [] => ""
  | [part] => part
  | part :: parts' => part +:+ sep +:+ join sep parts'
  end.

Section Executor.

(** [repr] of a [str], a builtin of the interpreter. *)
Variable repr_str : string -> string.

(** How an f-string shows a list of strings. *)
Definition repr_list (l : list string) : string :=
  "[" +:+ join ", " (repr_str <$> l) +:+ "]".

Definition unknown_variables_message (unknown_list available_list : list string)
  : string :=
  "Unknown template variables: " +:+ repr_list unknown_list
  +:+ ". " +:+ "Available variables: " +:+ repr_list available_list.

(** [WorkflowExecutor._validate_template_variables] *)
Definition _validate_template_variables (workflow : dict pyval) : result unit :=
  let available_variables : gset string := {["id"; "description"]} in
  available_variables ←
    match dict_get "matrix" workflow with
    | Some matrix =>
        keys ← py_keys matrix;
        mret (available_variables ∪ list_to_set keys)
    | None => mret available_variables
    end;
  let used_variables := _collect_template_variables (PDict workflow) ∅ in
  let unknown_variables := used_variables ∖ available_variables in
  if decide (unknown_variables = ∅) then mret ()
  else
    let unknown_list := sorted unknown_variables in
    let available_list := sorted available_variables in
    Raise (WorkflowExecutionError
             (unknown_variables_message unknown_list available_list)).

(** The collaborators imported from [causaliq_workflow.schema]. *)
Variable load_workflow_file : string -> result (dict pyval).
Variable validate_workflow : dict pyval -> result bool.

(** [WorkflowExecutor.parse_workflow]: the [except] clause catches
    [WorkflowValidationError] only; anything else propagates. *)
Definition parse_workflow (workflow_path : string) : result (dict pyval) :=
  let body :=
    workflow ← load_workflow_file workflow_path;
    _ ← validate_workflow workflow;
    _ ← _validate_template_variables workflow;
    mret workflow in
  match body with
  | Raise (WorkflowValidationError _ _ as e) =>
      Raise (WorkflowExecutionError
               ("Workflow validation failed: " +:+ exn_str e))
  | outcome => outcome
  end.

End Executor.

(** [repr] of a string of letters, digits, underscores and hyphens. *)
Definition repr_plain (s : string) : string := "'" +:+ s +:+ "'".

(** The workflow of the test suite with an unknown template variable. *)
Definition invalid_templates_workflow : dict pyval :=
  [("id", PStr "test-workflow");
   ("description", PStr "Test workflow");
   ("matrix", PDict [("dataset", PList [PStr "asia"])]);
   ("steps",
    PList [PDict [("uses", PStr "action");
                  ("with",
                   PDict [("result",
                           PStr "/results/{{unknown_var}}/{{dataset}}.xml")])]])].

(** The string leaves of a document: mappings are walked by value, sequences
    by element. *)
Inductive string_leaf (s : string) : pyval -> Prop :=
| leaf_str : string_leaf s (PStr s)
| leaf_item items item :
    item ∈ items -> string_leaf s item -> string_leaf s (PList items)
| leaf_value entries key value :
    (key, value) ∈ entries -> string_leaf s value ->
    string_leaf s (PDict entries).

(** [x] is used as a placeholder somewhere in the document. *)
Definition used_variable (x : string) (doc : pyval) : Prop :=
  exists s, string_leaf s doc /\ placeholder_in x s.

(** [x] is resolvable: one of [id] and [description], or a key of the
    workflow's matrix. *)
Definition available_variable (x : string) (workflow : dict pyval) : Prop :=
  x = "id" \/ x = "description"
  \/ exists matrix,
       dict_get "matrix" workflow = Some (PDict matrix) /\ x ∈ dict_keys matrix.

Definition unknown_variable (x : string) (workflow : dict pyval) : Prop :=
  used_variable x (PDict workflow) /\ ~ available_variable x workflow.

(** The data model's typing of the [matrix] field: a mapping when present. *)
Definition matrix_is_mapping (workflow : dict pyval) : Prop :=
  forall v, dict_get "matrix" workflow = Some v -> exists matrix, v = PDict matrix.

(** [l] lists the strings satisfying [P], each once, in lexicographic order. *)
Definition sorted_listing (l : list string) (P : string -> Prop) : Prop :=
  Sorted String.le l /\ NoDup l /\ forall x, x ∈ l <-> P x.

Section pyval_induction.

Variable P : pyval -> Prop.
Hypothesis HNone : P PNone.
Hypothesis HBool : forall b, P (PBool b).
Hypothesis HInt : forall z, P (PInt z).
Hypothesis HStr : forall s, P (PStr s).
Hypothesis HList : forall items, Forall P items -> P (PList items).
Hypothesis HDict :
  forall entries, Forall (fun kv => P kv.2) entries -> P (PDict entries).

Fixpoint pyval_ind (v : pyval) : P v :=
  match v with
  | PNone => HNone
  | PBool b => HBool b
  | PInt z => HInt z
  | PStr s => HStr s
  | PList items =>
      HList items
        ((fix go (l : list pyval) : Forall P l :=
            match l with
            | [] => @List.Forall_nil _ P
            | x :: l' => @List.Forall_cons _ P x l' (pyval_ind x) (go l')
            end) items)
  | PDict entries =>
      HDict entries
        ((fix go (l : list (string * pyval)) : Forall (fun kv => P kv.2) l :=
            match l with
            | [] => @List.Forall_nil _ _
            | (k, x) :: l' =>
                @List.Forall_cons _ (fun kv => P kv.2) (k, x) l'
                  (pyval_ind x) (go l')
            end) entries)
  end.

End pyval_induction.

(** The collaborators of the test suite's failing parse: the loader returns a
    document without steps, the structural validation rejects it. *)
Definition fake_load_workflow_file (_ : string) : result (dict pyval) :=
  Ok [("name", PStr "Test")].

Definition fake_validate_workflow (_ : dict pyval) : result bool :=
  Raise (WorkflowValidationError "Missing steps field" "").

(** ** Task statuses *)

(** Modelled from the spec: the [TaskStatus] enumeration and its four
    predicates.  The module [causaliq_workflow/status.py] is not among the
    sources; the data model of the specification lists the ten values in
    three groups (execution mode, comparison mode, error) and gives each
    predicate by its members, and the design notes ask for exhaustive matches
    over the tag. *)
Inductive TaskStatus : Type :=
| EXECUTES
| WOULD_EXECUTE
| SKIPS
| WOULD_SKIP
| IDENTICAL
| DIFFERENT
| INVALID_USES
| INVALID_PARAMETER
| FAILED
| TIMED_OUT.

#[global] Instance TaskStatus_eq_dec : EqDecision TaskStatus.
Proof. solve_decision. Defined.

(** Modelled from the spec: the values in the order the data model lists
    them. *)
Definition all_statuses : list TaskStatus :=
  [EXECUTES; WOULD_EXECUTE; SKIPS; WOULD_SKIP; IDENTICAL; DIFFERENT;
   INVALID_USES; INVALID_PARAMETER; FAILED; TIMED_OUT].

(** Modelled from the spec: [is_success]. *)
Definition is_success (s : TaskStatus) : bool :=
  match s with
  | EXECUTES | WOULD_EXECUTE | SKIPS | WOULD_SKIP | IDENTICAL | DIFFERENT => true
  | INVALID_USES | INVALID_PARAMETER | FAILED | TIMED_OUT => false
  end.

(** Modelled from the spec: [is_error], the error group of the data model. *)
Definition is_error (s : TaskStatus) : bool :=
  match s with
  | INVALID_USES | INVALID_PARAMETER | FAILED | TIMED_OUT => true
  | EXECUTES | WOULD_EXECUTE | SKIPS | WOULD_SKIP | IDENTICAL | DIFFERENT => false
  end.

(** Modelled from the spec: [is_execution], the outcomes where an action ran. *)
Definition is_execution (s : TaskStatus) : bool :=
  match s with
  | EXECUTES | IDENTICAL | DIFFERENT => true
  | WOULD_EXECUTE | SKIPS | WOULD_SKIP
  | INVALID_USES | INVALID_PARAMETER | FAILED | TIMED_OUT => false
  end.

(** Modelled from the spec: [is_dry_run]. *)
Definition is_dry_run (s : TaskStatus) : bool :=
  match s with
  | WOULD_EXECUTE | WOULD_SKIP => true
  | EXECUTES | SKIPS | IDENTICAL | DIFFERENT
  | INVALID_USES | INVALID_PARAMETER | FAILED | TIMED_OUT => false
  end.

(** The test suite's count of the primary properties a status has. *)
Definition property_count (s : TaskStatus) : nat :=
  Nat.b2n (is_success s) + Nat.b2n (is_error s).

(** ** Action references *)

(** Modelled from the spec: a declared parameter of an action, and what the
    registry's index knows of an action ([action_inputs] is [None] when the
    action declares no fixed input schema).  The module
    [causaliq_workflow/registry.py] is not among the sources. *)
Record ActionInput : Type := {
  input_name : string;
  input_required : bool;
  input_default : option pyval
}.

Record Action : Type := {
  action_inputs : option (list ActionInput)
}.

(** Modelled from the spec: the reference checks on one step with a [uses]
    field (the name is in the index; every [with] parameter is declared
    unless the action has no fixed schema; every required input without a
    default is present). *)
Definition validate_step_reference (index : dict Action) (step : pyval)
  : list (TaskStatus * string) :=
  match step with
  | PDict fields =>
      match dict_get "uses" fields with
      | Some (PStr name) =>
          match dict_get name index with
          | None => [(INVALID_USES, name)]
          | Some action =>
              let params :=
                match dict_get "with" fields with
                | Some (PDict ps) => dict_keys ps
                | _ => []
                end in
              match action_inputs action with
              | None => []
              | Some inputs =>
                  ((fun p => (INVALID_PARAMETER, p))
                     <$> filter (fun p => p ∉ input_name <$> inputs) params)
                  ++ ((fun i => (INVALID_PARAMETER, input_name i))
                        <$> filter (fun i => input_required i = true
                                             /\ input_default i = None
                                             /\ input_name i ∉ params) inputs)
              end
          end
      | _ => []
      end
  | _ => []
  end.

(** Modelled from the spec: [ActionRegistry.validate_workflow_actions], the
    reference errors of every step in order. *)
Definition validate_workflow_actions (index : dict Action) (workflow : dict pyval)
  : list (TaskStatus * string) :=
  match dict_get "steps" workflow with
  | Some (PList steps) => steps ≫= validate_step_reference index
  | _ => []
  end.

(** A structurally valid workflow whose only step uses an action that no
    registry entry provides. *)
Definition unregistered_action_workflow : dict pyval :=
  [("id", PStr "test-workflow");
   ("description", PStr "Test workflow");
   ("steps", PList [PDict [("uses", PStr "no_such_action")]])].

(** ** The specification's wording of a placeholder

    The specification describes the pattern in words: a name between two
    pairs of braces that starts with a letter or underscore and goes on with
    letters, digits, underscores and hyphens.  The definitions below say this
    with the alphabets written out, independently of the character classes of
    the matcher, for the extraction to be compared with. *)
Definition ascii_letters : string :=
  "abcdefghijklmnopqrstuvwxyzABCDEFGHIJKLMNOPQRSTUVWXYZ".

Definition decimal_digits : string := "0123456789".

Definition char_of (alphabet : string) (c : ascii) : Prop :=
  c ∈ String.list_ascii_of_string alphabet.

Definition spec_identifier_start (c : ascii) : Prop :=
  char_of ascii_letters c \/ c = "_"%char.

Definition spec_identifier_char (c : ascii) : Prop :=
  char_of ascii_letters c \/ char_of decimal_digits c
  \/ c = "_"%char \/ c = "-"%char.

Definition spec_identifier (x : string) : Prop :=
  match x with
  | "" => False
  | String c tail =>
      spec_identifier_start c
      /\ Forall spec_identifier_char (String.list_ascii_of_string tail)
  end.

Definition spec_placeholder_in (x s : string) : Prop :=
  spec_identifier x
  /\ exists before after, s = before +:+ "{{" +:+ x +:+ "}}" +:+ after.

#[global] Instance spec_identifier_start_dec c : Decision (spec_identifier_start c).
Proof. unfold spec_identifier_start, char_of. apply _. Defined.

#[global] Instance spec_identifier_char_dec c : Decision (spec_identifier_char c).
Proof. unfold spec_identifier_char, char_of. apply _. Defined.

(** ** Workflows and collaborators used as instances *)

(** How a matrix is written in a workflow document: the value lists are
    sequences of the document. *)
Definition matrix_document (matrix : dict (list pyval)) : pyval :=
  PDict ((fun kv => (kv.1, PList kv.2)) <$> matrix).

(** The test suite's workflow whose templates use [id] and both matrix
    variables. *)
Definition valid_templates_matrix : dict (list pyval) :=
  [("dataset", [PStr "asia"]); ("algorithm", [PStr "pc"])].

Definition valid_templates_workflow : dict pyval :=
  [("id", PStr "test-workflow");
   ("description", PStr "Test workflow");
   ("matrix", matrix_document valid_templates_matrix);
   ("steps",
    PList [PDict [("uses", PStr "test_action");
                  ("with",
                   PDict [("result",
                           PStr "/results/{{id}}/{{dataset}}_{{algorithm}}.xml")])]])].

(** A document whose [matrix] is a sequence instead of a mapping. *)
Definition list_matrix_workflow : dict pyval :=
  [("id", PStr "test-workflow");
   ("description", PStr "Test workflow");
   ("matrix", PList [PStr "asia"; PStr "cancer"]);
   ("steps", PList [PDict [("run", PStr "echo hello")]])].

(** A loader that fails on a missing file with an error of another class. *)
Definition missing_file_loader (_ : string) : result (dict pyval) :=
  Raise (PyException "FileNotFoundError" "No such file or directory").

(* ===================================================================== *)
(** * Properties *)
(* ===================================================================== *)

(** ** Matrix expansion *)

Example expand_matrix_single_variable :
  expand_matrix [("algorithm", [PStr "pc"; PStr "ges"; PStr "lingam"])]
  = Ok [[("algorithm", PStr "pc")]; [("algorithm", PStr "ges")];
        [("algorithm", PStr "lingam")]].
Proof. reflexivity. Qed.

Lemma flat_map_map_cons {A B} (f : A -> list B) (g : B -> B) (l : list A) :
  map g (flat_map f l) = flat_map (fun x => map g (f x)) l.
Proof.
  induction l as [|a l IH]; simpl; [done|].
  by rewrite map_app, IH.
Qed.

Lemma flat_map_flat_map {A B C} (f : A -> list B) (g : B -> list C) l :
  flat_map g (flat_map f l) = flat_map (fun x => flat_map g (f x)) l.
Proof.
  induction l as [|a l IH]; simpl; [done|].
  by rewrite flat_map_app, IH.
Qed.

Lemma foldl_product_step pools : forall acc,
  foldl product_step acc pools
  = flat_map (fun x => map (app x) (lex_product pools)) acc.
Proof.
  induction pools as [|pool pools IH]; intros acc; simpl.
  - induction acc as [|x acc IHacc]; simpl; [done|].
    by rewrite app_nil_r, <- IHacc.
  - rewrite IH. unfold product_step. rewrite flat_map_flat_map.
    apply flat_map_ext. intros x.
    rewrite flat_map_map_cons.
    induction pool as [|y pool IHp]; simpl; [done|].
    rewrite IHp. f_equal.
    rewrite map_map. apply map_ext. intros t.
    by rewrite <- app_assoc.
Qed.

Lemma itertools_product_lex pools : itertools_product pools = lex_product pools.
Proof.
  unfold itertools_product. rewrite foldl_product_step. simpl.
  rewrite app_nil_r. by rewrite map_id.
Qed.

Lemma product_size_app sizes1 sizes2 :
  product_size (sizes1 ++ sizes2) = product_size sizes1 * product_size sizes2.
Proof.
  unfold product_size. induction sizes1 as [|n sizes1 IH]; simpl; [lia|].
  rewrite IH. lia.
Qed.

Lemma product_size_split (pools : list (list pyval)) j pool :
  pools !! j = Some pool ->
  product_size (length <$> pools)
  = product_size (length <$> take j pools)
    * (length pool * product_size (length <$> drop (S j) pools)).
Proof.
  intros Hj.
  rewrite <- (take_drop_middle pools j pool Hj) at 1.
  by rewrite fmap_app, product_size_app.
Qed.

Lemma product_size_zero (sizes : list nat) :
  0 ∈ sizes -> product_size sizes = 0.
Proof.
  unfold product_size. induction sizes as [|n sizes IH]; simpl.
  - by intros ?%elem_of_nil.
  - intros [<-|Hin]%elem_of_cons; [done|]. rewrite IH by done. lia.
Qed.

Lemma flat_map_uniform_length {A B} (f : A -> list B) (n : nat) (l : list A) :
  (forall x, length (f x) = n) -> length (flat_map f l) = length l * n.
Proof.
  intros Hf. induction l as [|a l IH]; simpl; [done|].
  rewrite length_app, IH, Hf. lia.
Qed.

Lemma flat_map_uniform_lookup {A B} (f : A -> list B) (n : nat) (l : list A) :
  (forall x, length (f x) = n) ->
  forall i, i < length l * n ->
  exists x, l !! (i / n) = Some x /\ flat_map f l !! i = f x !! (i mod n).
Proof.
  intros Hf. induction l as [|a l IH]; intros i Hi; simpl in *; [lia|].
  destruct (decide (i < n)) as [Hlt|Hge].
  - exists a. rewrite Nat.div_small, Nat.mod_small by done.
    split; [done|]. apply lookup_app_l. by rewrite Hf.
  - destruct (IH (i - n)) as (x & Hx & Hlook); [lia|].
    assert (Hn : n <> 0) by lia.
    assert (Hdiv : i / n = S ((i - n) / n)).
    { replace i with ((i - n) + 1 * n) at 1 by lia.
      rewrite Nat.div_add by done. lia. }
    assert (Hmod : i mod n = (i - n) mod n).
    { replace i with ((i - n) + 1 * n) at 1 by lia.
      by rewrite Nat.Div0.mod_add. }
    exists x. rewrite lookup_app_r by (rewrite Hf; lia).
    by rewrite Hf, Hlook, Hdiv, Hmod.
Qed.

Lemma lex_product_length pools :
  length (lex_product pools) = product_size (length <$> pools).
Proof.
  induction pools as [|pool pools IH]; simpl; [done|].
  rewrite (flat_map_uniform_length _ (length (lex_product pools))).
  - by rewrite IH.
  - intros x. by rewrite length_map.
Qed.

Lemma digit_of_remainder i a n s :
  s <> 0 -> ((i mod (a * (n * s))) / s) mod n = (i / s) mod n.
Proof.
  intros Hs.
  rewrite (Nat.div_mod_eq i (a * (n * s))) at 2.
  replace (a * (n * s) * (i / (a * (n * s))) + i mod (a * (n * s)))
    with (i mod (a * (n * s)) + (a * (i / (a * (n * s))) * n) * s) by lia.
  rewrite Nat.div_add by done.
  by rewrite Nat.Div0.mod_add.
Qed.

(** The combination at index [i] holds, for the pool at position [j], that
    pool's element number [(i / s) mod n], with [n] the pool's size and [s] the
    number of combinations of the pools after it. *)
Lemma lex_product_lookup pools : forall i,
  i < product_size (length <$> pools) ->
  exists c, lex_product pools !! i = Some c /\ length c = length pools /\
    forall j pool, pools !! j = Some pool ->
      exists v,
        pool !! ((i / product_size (length <$> drop (S j) pools))
                 mod length pool) = Some v
        /\ c !! j = Some v.
Proof.
  induction pools as [|pool pools IH]; intros i Hi.
  - exists []. assert (i = 0) as -> by (unfold product_size in Hi; simpl in Hi; lia).
    split; [done|]. split; [done|]. intros j p Hj. by destruct j.
  - change (i < length pool * product_size (length <$> pools)) in Hi.
    set (n := product_size (length <$> pools)) in *. simpl.
    assert (Hn : n <> 0) by (intros Hz; rewrite Hz in Hi; lia).
    destruct (flat_map_uniform_lookup
                (fun x => map (cons x) (lex_product pools)) n pool) with (i := i)
      as (x & Hx & Hlook); [|done|].
    { intros x. by rewrite length_map, lex_product_length. }
    destruct (IH (i mod n)) as (c & Hc & Hlen & Hdigits).
    { by apply Nat.mod_upper_bound. }
    exists (x :: c). split.
    { rewrite Hlook. change (map (cons x) (lex_product pools))
        with (cons x <$> lex_product pools).
      by rewrite list_lookup_fmap, Hc. }
    split; [simpl; by rewrite Hlen|].
    intros [|j] p Hj; simpl in *.
    + inversion Hj; subst p. exists x. split; [|done].
      rewrite drop_0. fold n.
      rewrite Nat.mod_small; [done|].
      apply Nat.Div0.div_lt_upper_bound. lia.
    + destruct (Hdigits j p Hj) as (v & Hv & Hcj).
      exists v. split; [|done].
      rewrite <- Hv. symmetry. unfold n.
      rewrite (product_size_split pools j p Hj).
      f_equal. apply digit_of_remainder.
      intros Hz. apply Hn. unfold n.
      rewrite (product_size_split pools j p Hj), Hz. lia.
Qed.

Lemma head_lex_product pools : head (lex_product pools) = mapM head pools.
Proof.
  induction pools as [|pool pools IH]; [done|].
  cbn [lex_product]. cbn [mapM]. rewrite <- IH.
  destruct pool as [|x pool]; [done|]. cbn [flat_map head].
  destruct (lex_product pools) as [|c cs]; [|done]. simpl.
  by induction pool.
Qed.

(** On the pairs of a dictionary, [dict] builds that dictionary. *)
Lemma dict_set_fresh {V} k (v : V) (d : dict V) :
  k ∉ dict_keys d -> dict_set k v d = d ++ [(k, v)].
Proof.
  unfold dict_keys. induction d as [|[k' v'] d IH]; simpl; [done|].
  intros Hk. apply not_elem_of_cons in Hk as [Hne Hk].
  rewrite decide_False by done. by rewrite IH.
Qed.

Lemma foldl_dict_set {V} (pairs : list (string * V)) : forall acc,
  NoDup (dict_keys (acc ++ pairs)) ->
  foldl (fun d kv => dict_set kv.1 kv.2 d) acc pairs = acc ++ pairs.
Proof.
  unfold dict_keys.
  induction pairs as [|[k v] pairs IH]; intros acc Hnd; simpl.
  - by rewrite app_nil_r.
  - rewrite dict_set_fresh.
    + rewrite IH; rewrite <- app_assoc; [done|]. by simpl.
    + rewrite fmap_app in Hnd. apply NoDup_app in Hnd as (_ & Hdisj & _).
      intros Hin. apply (Hdisj k Hin). simpl. left.
Qed.

Lemma dict_of_pairs_wf {V} (pairs : list (string * V)) :
  dict_wf pairs -> dict_of_pairs pairs = pairs.
Proof. intros Hnd. unfold dict_of_pairs. by rewrite foldl_dict_set. Qed.

Lemma zip_keys_wf {V} (keys : list string) (c : list V) :
  NoDup keys -> dict_wf (zip keys c).
Proof.
  unfold dict_wf, dict_keys. intros Hnd. revert c.
  induction Hnd as [|k keys Hk Hnd IH]; intros [|v c]; simpl;
    try apply NoDup_nil_2.
  apply NoDup_cons_2; [|apply IH].
  intros Hin. apply Hk.
  apply list_elem_of_fmap in Hin as ([k' v'] & -> & Hin).
  by apply elem_of_zip_l in Hin.
Qed.

(** What [expand_matrix] returns on a non-empty dictionary. *)
Lemma expand_matrix_nonempty (matrix : dict (list pyval)) :
  matrix <> [] -> dict_wf matrix ->
  expand_matrix matrix
  = Ok (zip (dict_keys matrix) <$> lex_product (dict_values matrix)).
Proof.
  intros Hne Hwf. unfold expand_matrix, expand_matrix_with, product_call.
  destruct matrix as [|kv matrix]; [done|]. cbn [fst].
  rewrite itertools_product_lex. f_equal.
  apply map_ext. intros c. apply dict_of_pairs_wf. by apply zip_keys_wf.
Qed.

Lemma expand_matrix_jobs_length (matrix : dict (list pyval)) :
  matrix <> [] ->
  exists jobs, expand_matrix matrix = Ok jobs
    /\ length jobs = product_size (length <$> dict_values matrix).
Proof.
  intros Hne. unfold expand_matrix, expand_matrix_with, product_call.
  destruct matrix as [|kv matrix]; [done|]. cbn [fst].
  eexists. split; [done|].
  by rewrite length_map, itertools_product_lex, lex_product_length.
Qed.

(** C1. [expand_matrix] emits the jobs in cartesian-product order with the
    last-listed variable varying fastest.  For every non-empty matrix, job
    number [i] binds the variable at position [j] to value number
    [(i / s) mod n] of its list, where [n] is the length of that list and [s]
    (the [stride]) the number of combinations of the variables listed after
    it: the last variable has stride one and changes at every job, the first
    changes slowest.  Every job lists the variable names in the matrix's
    insertion order.  For variables [A, B] with values [a1, a2] and [b1, b2]
    the order is (a1,b1), (a1,b2), (a2,b1), (a2,b2), and the
    algorithm/dataset matrix of the specification expands to its four jobs in
    that order. *)
Theorem expand_matrix_last_variable_fastest :
  (forall matrix : dict (list pyval),
     matrix <> [] -> dict_wf matrix ->
     exists jobs,
       expand_matrix matrix = Ok jobs
       /\ length jobs = product_size (length <$> dict_values matrix)
       /\ forall i job, jobs !! i = Some job ->
            dict_keys job = dict_keys matrix
            /\ forall j k vs, matrix !! j = Some (k, vs) ->
                 exists v,
                   vs !! ((i / stride j matrix) mod length vs) = Some v
                   /\ job !! j = Some (k, v))
  /\ (forall (A B : string) (a1 a2 b1 b2 : pyval),
        A <> B ->
        expand_matrix [(A, [a1; a2]); (B, [b1; b2])]
        = Ok [[(A, a1); (B, b1)]; [(A, a1); (B, b2)];
              [(A, a2); (B, b1)]; [(A, a2); (B, b2)]])
  /\ expand_matrix algorithm_dataset_matrix
     = Ok [[("algorithm", PStr "pc"); ("dataset", PStr "asia")];
           [("algorithm", PStr "pc"); ("dataset", PStr "cancer")];
           [("algorithm", PStr "ges"); ("dataset", PStr "asia")];
           [("algorithm", PStr "ges"); ("dataset", PStr "cancer")]].
Proof.
  split; [|split].
  - intros matrix Hne Hwf.
    rewrite expand_matrix_nonempty by done.
    eexists. split; [done|]. split.
    { by rewrite length_fmap, lex_product_length. }
    intros i job Hjob.
    apply list_lookup_fmap_Some in Hjob as (c & -> & Hc).
    destruct (lex_product_lookup (dict_values matrix) i) as (c' & Hc' & Hlen & Hdigits).
    { rewrite <- lex_product_length. by eapply lookup_lt_Some. }
    assert (c' = c) as -> by congruence.
    split.
    { unfold dict_keys at 1. apply fst_zip.
      rewrite Hlen. unfold dict_keys, dict_values. by rewrite !length_fmap. }
    intros j k vs Hj.
    destruct (Hdigits j vs) as (v & Hv & Hcj).
    { unfold dict_values. by rewrite list_lookup_fmap, Hj. }
    exists v. split; [done|].
    rewrite lookup_zip_with. unfold dict_keys.
    by rewrite list_lookup_fmap, Hj, Hcj.
  - intros A B a1 a2 b1 b2 HAB.
    rewrite expand_matrix_nonempty; [done|done|].
    unfold dict_wf, dict_keys. simpl.
    apply NoDup_cons_2; [by intros ->%list_elem_of_singleton|].
    apply NoDup_singleton.
  - reflexivity.
Qed.

(** The general part of C1 at the three-variable matrix: job number 7 of the
    twelve binds dataset to value 1, algorithm to value 1 and alpha to
    value 1 of their lists. *)
Lemma expand_matrix_last_variable_fastest_witness :
  exists jobs job,
    expand_matrix dataset_algorithm_alpha_matrix = Ok jobs
    /\ length jobs = 12
    /\ jobs !! 7 = Some job
    /\ job !! 0 = Some ("dataset", PStr "cancer")
    /\ job !! 1 = Some ("algorithm", PStr "ges")
    /\ job !! 2 = Some ("alpha", PInt 5).
Proof.
  destruct (proj1 expand_matrix_last_variable_fastest
              dataset_algorithm_alpha_matrix) as (jobs & Hrun & Hlen & Hjobs).
  { discriminate. }
  { unfold dict_wf. apply (bool_decide_unpack _). vm_compute. exact I. }
  assert (is_Some (jobs !! 7)) as [job Hjob].
  { apply lookup_lt_is_Some. rewrite Hlen. vm_compute. lia. }
  destruct (Hjobs 7 job Hjob) as [_ Hbind].
  exists jobs, job. split; [exact Hrun|]. split; [exact Hlen|].
  split; [exact Hjob|].
  destruct (Hbind 0 _ _ eq_refl) as (v0 & Hv0 & ->).
  destruct (Hbind 1 _ _ eq_refl) as (v1 & Hv1 & ->).
  destruct (Hbind 2 _ _ eq_refl) as (v2 & Hv2 & ->).
  vm_compute in Hv0, Hv1, Hv2.
  inversion Hv0; inversion Hv1; inversion Hv2. done.
Defined.

(** C2. For a non-empty matrix whose value lists have lengths [n1 .. nk],
    [expand_matrix] returns exactly [n1 * ... * nk] jobs; for the empty
    matrix it returns the one-element list holding the empty job. *)
Theorem expand_matrix_job_count :
  (forall matrix : dict (list pyval),
     matrix <> [] ->
     exists jobs,
       expand_matrix matrix = Ok jobs
       /\ length jobs = product_size (length <$> dict_values matrix))
  /\ expand_matrix [] = Ok [[]].
Proof. split; [apply expand_matrix_jobs_length | reflexivity]. Qed.

Lemma expand_matrix_job_count_witness :
  exists jobs,
    expand_matrix dataset_algorithm_alpha_matrix = Ok jobs
    /\ length jobs = 3 * (2 * (2 * 1)).
Proof.
  apply (proj1 expand_matrix_job_count dataset_algorithm_alpha_matrix).
  discriminate.
Defined.

(** C8. [expand_matrix] is deterministic and order-stable.  Its output does
    not depend on how many expansions ran before, so two runs on the same
    matrix give the same result, the second run starting where the first one
    ended included; and for a non-empty matrix the first job is the
    combination of the first value of every variable, in declared order
    (there is a first job exactly when every variable has a first value). *)
Theorem expand_matrix_deterministic :
  (forall (matrix : dict (list pyval)) (calls1 calls2 : nat),
     (expand_matrix_with product_call matrix calls1).1
     = (expand_matrix_with product_call matrix calls2).1)
  /\ (forall (matrix : dict (list pyval)) (calls : nat),
        let first_run := expand_matrix_with product_call matrix calls in
        let second_run := expand_matrix_with product_call matrix first_run.2 in
        first_run.1 = expand_matrix matrix /\ second_run.1 = first_run.1)
  /\ (forall matrix : dict (list pyval),
        matrix <> [] -> dict_wf matrix ->
        exists jobs,
          expand_matrix matrix = Ok jobs
          /\ head jobs
             = zip (dict_keys matrix) <$> mapM head (dict_values matrix)).
Proof.
  assert (Hstate : forall (matrix : dict (list pyval)) (calls1 calls2 : nat),
             (expand_matrix_with product_call matrix calls1).1
             = (expand_matrix_with product_call matrix calls2).1).
  { intros matrix calls1 calls2. by destruct matrix. }
  split; [exact Hstate|]. split.
  - intros matrix calls first_run second_run. split; apply Hstate.
  - intros matrix Hne Hwf. rewrite expand_matrix_nonempty by done.
    eexists. split; [done|].
    rewrite <- head_lex_product.
    by destruct (lex_product (dict_values matrix)).
Qed.

Lemma expand_matrix_deterministic_witness :
  exists jobs,
    expand_matrix dataset_algorithm_alpha_matrix = Ok jobs
    /\ head jobs
       = Some [("dataset", PStr "asia"); ("algorithm", PStr "pc");
               ("alpha", PInt 1)].
Proof.
  apply (proj2 (proj2 expand_matrix_deterministic)
           dataset_algorithm_alpha_matrix).
  - discriminate.
  - unfold dict_wf. apply (bool_decide_unpack _). vm_compute. exact I.
Defined.

(** C10. A non-empty matrix in which some variable has an empty value list
    expands to the empty list of jobs: nothing is raised and no placeholder
    job is produced. *)
Theorem expand_matrix_empty_value_list
    (matrix : dict (list pyval)) (k : string) :
  (k, []) ∈ matrix -> expand_matrix matrix = Ok [].
Proof.
  intros Hin.
  destruct (expand_matrix_jobs_length matrix) as (jobs & -> & Hlen).
  { intros ->. by apply elem_of_nil in Hin. }
  f_equal. apply length_zero_iff_nil. rewrite Hlen.
  apply product_size_zero.
  apply list_elem_of_fmap. exists []. split; [done|].
  unfold dict_values. apply list_elem_of_fmap. by exists (k, []).
Qed.

Lemma expand_matrix_empty_value_list_witness :
  expand_matrix [("algorithm", [PStr "pc"; PStr "ges"]); ("dataset", [])]
  = Ok [].
Proof.
  apply (expand_matrix_empty_value_list _ "dataset").
  apply list_elem_of_further, list_elem_of_here.
Defined.

Lemma elem_of_lex_product pools : forall c,
  c ∈ lex_product pools <-> Forall2 (fun v pool => v ∈ pool) c pools.
Proof.
  induction pools as [|pool pools IH]; intros c; cbn [lex_product].
  - rewrite list_elem_of_singleton. split; [by intros ->|].
    by intros ->%Forall2_nil_inv_r.
  - rewrite list_elem_of_In, in_flat_map. split.
    + intros (x & Hx%list_elem_of_In & Hc%list_elem_of_In).
      apply list_elem_of_fmap in Hc as (t & -> & Ht).
      constructor; [done|]. by apply IH.
    + intros (x & t & Hx & Ht & ->)%Forall2_cons_inv_r.
      exists x. split; [by apply list_elem_of_In|].
      apply list_elem_of_In, list_elem_of_fmap. exists t. split; [done|].
      by apply IH.
Qed.

(** X1. The jobs are the combinations: a dictionary is among the jobs of a
    non-empty matrix exactly when it has the keys of the matrix, in order, and
    binds each of them to one of the values listed for it. *)
Theorem expand_matrix_jobs_are_the_combinations (matrix : dict (list pyval)) :
  matrix <> [] -> dict_wf matrix ->
  exists jobs,
    expand_matrix matrix = Ok jobs
    /\ forall job : dict pyval,
         job ∈ jobs
         <-> dict_keys job = dict_keys matrix
             /\ Forall2 (fun v vs => v ∈ vs)
                  (dict_values job) (dict_values matrix).
Proof.
  intros Hne Hwf. rewrite expand_matrix_nonempty by done.
  eexists. split; [done|]. intros job.
  rewrite list_elem_of_fmap. unfold dict_keys, dict_values. split.
  - intros (c & -> & Hc%elem_of_lex_product).
    assert (Hlen : length c = length matrix).
    { apply Forall2_length in Hc. by rewrite length_fmap in Hc. }
    rewrite fst_zip, snd_zip by (rewrite length_fmap; lia). done.
  - intros [Hkeys Hvalues]. exists (job.*2). split.
    + rewrite <- Hkeys. symmetry. apply zip_fst_snd.
    + by apply elem_of_lex_product.
Qed.

Lemma expand_matrix_jobs_are_the_combinations_witness :
  exists jobs,
    expand_matrix dataset_algorithm_alpha_matrix = Ok jobs
    /\ [("dataset", PStr "asia"); ("algorithm", PStr "pc"); ("alpha", PInt 1)]
       ∈ jobs.
Proof.
  destruct (expand_matrix_jobs_are_the_combinations
              dataset_algorithm_alpha_matrix) as (jobs & Hrun & Hjobs).
  { discriminate. }
  { unfold dict_wf. apply (bool_decide_unpack _). vm_compute. exact I. }
  exists jobs. split; [exact Hrun|]. apply Hjobs. split; [reflexivity|].
  repeat (constructor; [apply list_elem_of_here|]). constructor.
Defined.

(** C7. When the product generation raises on a non-empty matrix,
    [expand_matrix] raises a [WorkflowExecutionError] whose message is
    "Matrix expansion failed: " followed by the message of the cause, whatever
    the class of the cause; the product was invoked exactly once, so the
    failure is not retried. *)
Theorem expand_matrix_wraps_failure
    (product : nat -> list (list pyval) -> result (list (list pyval)))
    (matrix : dict (list pyval)) (calls : nat) (e : exn) :
  matrix <> [] ->
  product calls (dict_values matrix) = Raise e ->
  expand_matrix_with product matrix calls
  = (Raise (WorkflowExecutionError
              ("Matrix expansion failed: " +:+ exn_str e)), S calls).
Proof.
  intros Hne Hraise. unfold expand_matrix_with.
  destruct matrix as [|kv matrix]; [done|]. by rewrite Hraise.
Qed.

Lemma expand_matrix_wraps_failure_witness :
  expand_matrix_with fake_product [("algorithm", [PStr "pc"; PStr "ges"])] 0
  = (Raise (WorkflowExecutionError
              "Matrix expansion failed: Unexpected error in itertools"), 1).
Proof.
  apply (expand_matrix_wraps_failure fake_product
           [("algorithm", [PStr "pc"; PStr "ges"])] 0
           (PyException "RuntimeError" "Unexpected error in itertools")).
  - discriminate.
  - reflexivity.
Defined.

(** ** Template variables *)

Example findall_three :
  findall "/results/{{id}}/{{dataset}}_{{algorithm}}.xml"
  = ["id"; "dataset"; "algorithm"].
Proof. reflexivity. Qed.

Example findall_malformed :
  findall "/results/{dataset}/{{}/{{incomplete}/output.xml" = [].
Proof. reflexivity. Qed.

Example findall_nested_braces : findall "{{{a}}}{{b-1}}{{1c}}" = ["a"; "b-1"].
Proof. reflexivity. Qed.

(** [String.append] computes on its first argument. *)
Lemma append_nil_l (t : string) : "" +:+ t = t.
Proof. reflexivity. Qed.

Lemma append_cons (a : ascii) (s t : string) :
  String a s +:+ t = String a (s +:+ t).
Proof. reflexivity. Qed.

Ltac str_simpl := rewrite ?append_cons, ?append_nil_l in *.

Lemma append_assoc (s t u : string) : (s +:+ t) +:+ u = s +:+ t +:+ u.
Proof. induction s as [|c s IH]; str_simpl; [done|]. by rewrite IH. Qed.

Lemma strip_prefix_Some literal s t :
  strip_prefix literal s = Some t <-> s = literal +:+ t.
Proof.
  revert s. induction literal as [|a literal IH]; intros s;
    cbn [strip_prefix]; str_simpl.
  - split; congruence.
  - destruct s as [|b s]; [split; discriminate|].
    destruct (Ascii.eqb_spec a b) as [->|Hne].
    + rewrite IH. split; congruence.
    + split; [discriminate|]. congruence.
Qed.

Lemma span_ident_sound s name rest :
  span_ident s = (name, rest) ->
  s = name +:+ rest /\ all_chars ident_char name = true.
Proof.
  revert name rest. induction s as [|c s IH]; intros name rest; simpl.
  - intros [= <- <-]. done.
  - destruct (ident_char c) eqn:Hc.
    + destruct (span_ident s) as [name' rest'].
      intros [= <- <-]. destruct (IH _ _ eq_refl) as [-> Hall].
      str_simpl. simpl. by rewrite Hc, Hall.
    + intros [= <- <-]. done.
Qed.

Lemma span_ident_closing x t :
  all_chars ident_char x = true ->
  span_ident (x +:+ String "}" t) = (x, String "}" t).
Proof.
  induction x as [|c x IH]; str_simpl; simpl; [done|].
  intros [Hc Hall]%andb_prop. by rewrite Hc, IH.
Qed.

(** The pattern matches at the start of [s] exactly when [s] starts with an
    identifier between two pairs of braces. *)
Lemma match_placeholder_spec s x rest :
  match_placeholder s = Some (x, rest)
  <-> is_identifier x = true /\ s = "{{" +:+ x +:+ "}}" +:+ rest.
Proof.
  unfold match_placeholder. split.
  - destruct (strip_prefix "{{" s) as [[|c s1]|] eqn:Hopen; try discriminate.
    apply strip_prefix_Some in Hopen as ->.
    destruct (ident_start c) eqn:Hc; [|discriminate].
    destruct (span_ident s1) as [name rest1] eqn:Hspan.
    apply span_ident_sound in Hspan as [-> Hall].
    destruct (strip_prefix "}}" rest1) as [rest'|] eqn:Hclose; [|discriminate].
    apply strip_prefix_Some in Hclose as ->.
    intros [= <- <-]. simpl. by rewrite Hc, Hall.
  - intros [Hid ->]. destruct x as [|c x]; [discriminate|].
    simpl in Hid. apply andb_prop in Hid as [Hc Hall].
    str_simpl. simpl. rewrite Hc.
    rewrite span_ident_closing by done. done.
Qed.

Lemma ident_char_not_open c : ident_char c = true -> not_open_brace c = true.
Proof.
  unfold not_open_brace. destruct (Ascii.eqb_spec c "{") as [->|]; [|done].
  vm_compute. discriminate.
Qed.

Lemma ident_start_not_open c : ident_start c = true -> not_open_brace c = true.
Proof.
  unfold not_open_brace. destruct (Ascii.eqb_spec c "{") as [->|]; [|done].
  vm_compute. discriminate.
Qed.

Lemma all_chars_impl (p q : ascii -> bool) s :
  (forall c, p c = true -> q c = true) ->
  all_chars p s = true -> all_chars q s = true.
Proof.
  intros Hpq. induction s as [|c s IH]; simpl; [done|].
  intros [Hc Hs]%andb_prop. by rewrite (Hpq c Hc), IH.
Qed.

Lemma all_chars_app p s t :
  all_chars p (s +:+ t) = all_chars p s && all_chars p t.
Proof.
  induction s as [|c s IH]; str_simpl; simpl; [done|].
  by rewrite IH, andb_assoc.
Qed.

Lemma length_append s t :
  String.length (s +:+ t) = String.length s + String.length t.
Proof. induction s as [|c s IH]; str_simpl; simpl; [done|]. by rewrite IH. Qed.

Lemma match_placeholder_first c t :
  not_open_brace c = true -> match_placeholder (String c t) = None.
Proof.
  unfold not_open_brace, match_placeholder. cbn [strip_prefix].
  rewrite Ascii.eqb_sym. by intros ->%negb_true_iff.
Qed.

Lemma match_placeholder_second c t :
  not_open_brace c = true -> match_placeholder (String "{" (String c t)) = None.
Proof.
  unfold not_open_brace, match_placeholder. cbn [strip_prefix].
  rewrite Ascii.eqb_refl, (Ascii.eqb_sym c). by intros ->%negb_true_iff.
Qed.

Lemma quiet_no_open_brace y rest :
  all_chars not_open_brace y = true -> quiet (String.length y) (y +:+ rest).
Proof.
  induction y as [|c y IH]; str_simpl; simpl; [done|].
  intros [Hc Hy]%andb_prop. split; [|by apply IH].
  by apply match_placeholder_first.
Qed.

(** Matches do not overlap: behind the first character of a match, no other
    match starts before the match ends. *)
Lemma match_placeholder_quiet c0 s x rest :
  match_placeholder (String c0 s) = Some (x, rest) ->
  quiet (String.length x + 3) s.
Proof.
  intros [Hid Hs]%match_placeholder_spec.
  destruct x as [|c x]; [discriminate|].
  simpl in Hid. apply andb_prop in Hid as [Hc Hall].
  str_simpl. injection Hs as -> ->.
  change (String.length (String c x) + 3) with (S (String.length x + 3)).
  split; [by apply match_placeholder_second, ident_start_not_open|].
  replace (String.length x + 3) with (String.length (String c x +:+ "}}"))
    by (rewrite length_append; simpl; lia).
  replace (String c (x +:+ String "}" (String "}" rest)))
    with ((String c x +:+ "}}") +:+ rest).
  - apply quiet_no_open_brace. rewrite all_chars_app. simpl.
    rewrite (ident_start_not_open c Hc).
    rewrite (all_chars_impl _ _ x ident_char_not_open Hall). done.
  - str_simpl. f_equal. induction x as [|a x IH]; str_simpl; [done|].
    f_equal. apply IH. simpl in Hall. by apply andb_prop in Hall as [_ ?].
Qed.

Lemma suffix_cons (P : string -> Prop) c s :
  (exists before t, String c s = before +:+ t /\ P t)
  <-> P (String c s) \/ exists before t, s = before +:+ t /\ P t.
Proof.
  split.
  - intros ([|a before] & t & Heq & Ht); str_simpl.
    + left. by subst t.
    + right. injection Heq as -> ->. by exists before, t.
  - intros [Ht|(before & t & -> & Ht)].
    + by exists "", (String c s).
    + by exists (String c before), t.
Qed.

(** [findall] returns the names matched at the positions of [s], all of them. *)
Lemma findall_from_spec s : forall k,
  quiet k s ->
  forall x,
    x ∈ findall_from k s
    <-> exists before t,
          s = before +:+ t /\ exists rest, match_placeholder t = Some (x, rest).
Proof.
  induction s as [|c s IH]; intros k Hquiet x.
  - simpl. split; [by intros ?%elem_of_nil|].
    intros ([|a before] & t & Heq & rest & Hm); str_simpl; [|discriminate].
    subst t. discriminate.
  - rewrite suffix_cons. destruct k as [|k].
    + cbn [findall_from].
      destruct (match_placeholder (String c s)) as [[name rest]|] eqn:Hm.
      * rewrite elem_of_cons, IH by (by eapply match_placeholder_quiet).
        split; intros [H|H]; try (by right).
        -- left. exists rest. by subst.
        -- left. destruct H as (rest' & [= -> _]). done.
      * rewrite IH by done.
        split; [by right|]. intros [(rest & ?)|H]; [discriminate|done].
    + destruct Hquiet as [Hm Hquiet]. cbn [findall_from].
      rewrite IH by done.
      split; [by right|]. intros [(rest & ?)|H]; [congruence|done].
Qed.

Lemma findall_spec s x : x ∈ findall s <-> placeholder_in x s.
Proof.
  unfold findall, placeholder_in. rewrite findall_from_spec by done.
  split.
  - intros (before & t & -> & rest & [Hid ->]%match_placeholder_spec).
    split; [done|]. by exists before, rest.
  - intros (Hid & before & after & ->).
    exists before, ("{{" +:+ x +:+ "}}" +:+ after). split; [done|].
    exists after. by apply match_placeholder_spec.
Qed.

(** Behind a match the search resumes on the text after it. *)
Lemma findall_from_skip before s :
  findall_from (String.length before) (before +:+ s) = findall_from 0 s.
Proof. induction before as [|c before IH]; str_simpl; simpl; [|done]. by destruct s. Qed.

Lemma findall_unfold c s :
  findall (String c s)
  = match match_placeholder (String c s) with
    | Some (name, rest) => name :: findall rest
    | None => findall s
    end.
Proof.
  unfold findall. cbn [findall_from].
  destruct (match_placeholder (String c s)) as [[name rest]|] eqn:Hm; [|done].
  f_equal. apply match_placeholder_spec in Hm as [_ Hs]. str_simpl.
  injection Hs as -> ->.
  rewrite <- (findall_from_skip (String "{" name +:+ "}}") rest).
  f_equal.
  - rewrite length_append. simpl. lia.
  - str_simpl. f_equal. clear. induction name as [|a x IH]; str_simpl; [done|].
    by rewrite IH.
Qed.

Lemma ident_start_spec c : ident_start c = true <-> spec_identifier_start c.
Proof.
  assert (ident_start c = bool_decide (spec_identifier_start c)) as ->
    by (by destruct c as [[] [] [] [] [] [] [] []]; vm_compute).
  apply bool_decide_eq_true.
Qed.

Lemma ident_char_spec c : ident_char c = true <-> spec_identifier_char c.
Proof.
  assert (ident_char c = bool_decide (spec_identifier_char c)) as ->
    by (by destruct c as [[] [] [] [] [] [] [] []]; vm_compute).
  apply bool_decide_eq_true.
Qed.

Lemma is_identifier_spec x : is_identifier x = true <-> spec_identifier x.
Proof.
  destruct x as [|c tail]; simpl; [done|].
  rewrite andb_true_iff, ident_start_spec.
  assert (all_chars ident_char tail = true
          <-> Forall spec_identifier_char (String.list_ascii_of_string tail))
    as ->; [|done].
  induction tail as [|d tail IH]; simpl.
  - split; [constructor|done].
  - rewrite andb_true_iff, Forall_cons, ident_char_spec, IH. done.
Qed.

Lemma placeholder_in_spec x s : placeholder_in x s <-> spec_placeholder_in x s.
Proof. unfold placeholder_in, spec_placeholder_in. by rewrite is_identifier_spec. Qed.

(** C4. On a string, [_extract_template_variables] returns exactly the
    identifiers written in it between two pairs of braces, an identifier
    being a letter or underscore followed by letters, digits, underscores and
    hyphens (the specification's wording, with the alphabets written out); on
    anything that is not a string it returns the empty set.  Braces that do
    not form such a placeholder contribute nothing.  The function is total
    (its result is a set in every case, never an exception); in particular a
    single-brace name gives the empty set, two adjacent placeholders give
    both names, the malformed text of the test suite gives the empty set, its
    result template gives the three names in it, and of five bracketed texts
    only the one that is an identifier is extracted. *)
Theorem extract_template_variables_spec :
  (forall s x : string,
     x ∈ _extract_template_variables (PStr s) <-> spec_placeholder_in x s)
  /\ (forall text : pyval,
        (forall s, text <> PStr s) -> _extract_template_variables text = ∅)
  /\ _extract_template_variables (PStr "{invalid}") = ∅
  /\ _extract_template_variables (PStr "{{a}}{{b}}") = {["a"; "b"]}
  /\ _extract_template_variables
       (PStr "/results/{dataset}/{{}/{{incomplete}/output.xml") = ∅
  /\ _extract_template_variables
       (PStr "/results/{{id}}/{{dataset}}_{{algorithm}}.xml")
     = {["id"; "dataset"; "algorithm"]}
  /\ _extract_template_variables
       (PStr "{{_Run-2}}{{1st}}{{-x}}{{a b}}{{a.b}}") = {["_Run-2"]}.
Proof.
  split; [|split; [|split; [|split; [|split; [|split]]]]].
  - intros s x. simpl.
    rewrite elem_of_list_to_set, findall_spec. apply placeholder_in_spec.
  - intros text Hns. destruct text; try done. by destruct (Hns s).
  - reflexivity.
  - simpl. change (findall "{{a}}{{b}}") with ["a"; "b"]. set_solver.
  - reflexivity.
  - simpl.
    replace (findall "/results/{{id}}/{{dataset}}_{{algorithm}}.xml")
      with ["id"; "dataset"; "algorithm"] by reflexivity.
    set_solver.
  - simpl.
    replace (findall "{{_Run-2}}{{1st}}{{-x}}{{a b}}{{a.b}}")
      with ["_Run-2"] by reflexivity.
    set_solver.
Qed.

Lemma dataset_written_in_chart :
  spec_placeholder_in "dataset" "chart_{{dataset}}.png".
Proof.
  split.
  - split; [left|]; vm_compute; repeat constructor.
  - by exists "chart_", ".png".
Qed.

Lemma extract_template_variables_spec_witness :
  _extract_template_variables (PInt 123) = ∅
  /\ "dataset" ∈ _extract_template_variables (PStr "chart_{{dataset}}.png")
  /\ (forall x, x ∈ _extract_template_variables (PStr "chart_{{dataset}}.png") ->
                spec_identifier x).
Proof.
  split; [|split].
  - apply (proj1 (proj2 extract_template_variables_spec) (PInt 123)).
    discriminate.
  - apply (proj1 extract_template_variables_spec "chart_{{dataset}}.png").
    exact dataset_written_in_chart.
  - intros x Hx.
    by apply (proj1 extract_template_variables_spec "chart_{{dataset}}.png")
      in Hx as [Hid _].
Defined.

(** ** Template validation *)

Example validate_invalid_templates :
  _validate_template_variables repr_plain invalid_templates_workflow
  = Raise (WorkflowExecutionError
             "Unknown template variables: ['unknown_var']. Available variables: ['dataset', 'description', 'id']").
Proof. vm_compute. reflexivity. Qed.

Lemma used_variable_str x s : used_variable x (PStr s) <-> placeholder_in x s.
Proof.
  split.
  - intros (s' & Hleaf & Hx). by inversion Hleaf; subst.
  - intros Hx. exists s. split; [constructor | done].
Qed.

Lemma used_variable_list x items :
  used_variable x (PList items)
  <-> exists item, item ∈ items /\ used_variable x item.
Proof.
  split.
  - intros (s & Hleaf & Hx). inversion Hleaf as [|? item Hin Hleaf'|]; subst.
    exists item. split; [done|]. by exists s.
  - intros (item & Hin & s & Hleaf & Hx).
    exists s. split; [|done]. by apply (leaf_item s items item).
Qed.

Lemma used_variable_dict x entries :
  used_variable x (PDict entries)
  <-> exists key value, (key, value) ∈ entries /\ used_variable x value.
Proof.
  split.
  - intros (s & Hleaf & Hx). inversion Hleaf as [| |? key value Hin Hleaf']; subst.
    exists key, value. split; [done|]. by exists s.
  - intros (key & value & Hin & s & Hleaf & Hx).
    exists s. split; [|done]. by apply (leaf_value s entries key value).
Qed.

(** The collected set is the set passed in plus the variables used in the
    document. *)
Lemma collect_template_variables_spec obj : forall used x,
  x ∈ _collect_template_variables obj used <-> x ∈ used \/ used_variable x obj.
Proof.
  induction obj as [| | |s|items IH|entries IH] using pyval_ind; intros used x;
    cbn [_collect_template_variables].
  1-3: split; [by left|]; intros [?|(s & Hleaf & _)]; [done|inversion Hleaf].
  - rewrite elem_of_union, used_variable_str.
    cbn [_extract_template_variables].
    by rewrite elem_of_list_to_set, findall_spec.
  - rewrite used_variable_list. revert used.
    induction IH as [|item items Hitem _ IHitems]; intros used; simpl.
    + split; [by left|]. intros [?|(item & Hin & _)]; [done|].
      by apply elem_of_nil in Hin.
    + rewrite IHitems, Hitem. split.
      * intros [[?|?]|(i & Hin & Hi)]; [by left| |].
        -- right. exists item. split; [left|done].
        -- right. exists i. split; [by right|done].
      * intros [?|(i & [->|Hin]%elem_of_cons & Hi)].
        -- by left; left.
        -- by left; right.
        -- right. by exists i.
  - rewrite used_variable_dict. revert used.
    induction IH as [|[key value] entries Hvalue _ IHentries]; intros used; simpl.
    + split; [by left|]. intros [?|(key & value & Hin & _)]; [done|].
      by apply elem_of_nil in Hin.
    + rewrite IHentries. simpl in Hvalue. rewrite Hvalue. split.
      * intros [[?|?]|(k & v & Hin & Hv)]; [by left| |].
        -- right. exists key, value. split; [left|done].
        -- right. exists k, v. split; [by right|done].
      * intros [?|(k & v & [[= -> ->]|Hin]%elem_of_cons & Hv)].
        -- by left; left.
        -- by left; right.
        -- right. by exists k, v.
Qed.

(** X2. [_collect_template_variables] walks every string leaf of the
    document, mappings by value and sequences by element, and adds the
    variables extracted from each leaf to the set it was given. *)
Theorem collect_template_variables_union_of_leaves
    (doc : pyval) (used : gset string) (x : string) :
  x ∈ _collect_template_variables doc used
  <-> x ∈ used
      \/ exists s, string_leaf s doc /\ x ∈ _extract_template_variables (PStr s).
Proof.
  rewrite collect_template_variables_spec. unfold used_variable.
  cbn [_extract_template_variables].
  by setoid_rewrite elem_of_list_to_set; setoid_rewrite findall_spec.
Qed.

Lemma sorted_sorted_listing (xs : gset string) :
  sorted_listing (sorted xs) (fun x => x ∈ xs).
Proof.
  unfold sorted_listing, sorted. split; [|split].
  - apply (Sorted_merge_sort String.le).
  - rewrite merge_sort_Permutation. apply NoDup_elements.
  - intros x. rewrite merge_sort_Permutation. apply elem_of_elements.
Qed.

Lemma sorted_listing_ext l (P Q : string -> Prop) :
  (forall x, P x <-> Q x) -> sorted_listing l P -> sorted_listing l Q.
Proof.
  intros HPQ (Hs & Hnd & Hl). split; [done|]. split; [done|].
  intros x. by rewrite Hl.
Qed.

(** The available set the validation computes. *)
Lemma available_variables_spec (workflow : dict pyval) :
  matrix_is_mapping workflow ->
  exists available : gset string,
    match dict_get "matrix" workflow with
    | Some matrix =>
        keys ← py_keys matrix;
        mret (({["id"; "description"]} : gset string) ∪ list_to_set keys)
    | None => mret ({["id"; "description"]} : gset string)
    end = Ok available
    /\ forall x, x ∈ available <-> available_variable x workflow.
Proof.
  intros Hmap. unfold available_variable.
  destruct (dict_get "matrix" workflow) as [v|] eqn:Hget.
  - destruct (Hmap v Hget) as [matrix ->]. eexists. split; [done|].
    intros x. rewrite !elem_of_union, !elem_of_singleton, elem_of_list_to_set.
    split.
    + intros [[?|?]|?]; [by left | by right; left |].
      right; right. by exists matrix.
    + intros [?|[?|(m & [= <-] & ?)]]; [by left; left | by left; right | by right].
  - eexists. split; [done|].
    intros x. rewrite !elem_of_union, !elem_of_singleton.
    split.
    + intros [?|?]; [by left | by right; left].
    + intros [?|[?|(m & ? & _)]]; [by left | by right | done].
Qed.

Lemma validate_template_variables_cases
    (repr_str : string -> string) (workflow : dict pyval) :
  matrix_is_mapping workflow ->
  (_validate_template_variables repr_str workflow = Ok ()
   /\ forall x, ~ unknown_variable x workflow)
  \/ ((exists x, unknown_variable x workflow)
      /\ exists unknown_list available_list,
           _validate_template_variables repr_str workflow
           = Raise (WorkflowExecutionError
                      (unknown_variables_message repr_str
                         unknown_list available_list))
           /\ sorted_listing unknown_list
                (fun x => unknown_variable x workflow)
           /\ sorted_listing available_list
                (fun x => available_variable x workflow)).
Proof.
  intros Hmap. unfold _validate_template_variables.
  destruct (available_variables_spec workflow Hmap) as (available & -> & Havail).
  cbn [mbind result_bind].
  set (used := _collect_template_variables (PDict workflow) ∅).
  assert (Hunknown : forall x, x ∈ used ∖ available <-> unknown_variable x workflow).
  { intros x. unfold unknown_variable, used.
    rewrite elem_of_difference, collect_template_variables_spec, Havail.
    split; intros [Hu Ha]; (split; [|done]).
    - destruct Hu as [Hu|Hu]; [|done]. by apply not_elem_of_empty in Hu.
    - by right. }
  destruct (decide (used ∖ available = ∅)) as [Hempty|Hne].
  - left. split; [done|]. intros x Hx%Hunknown.
    rewrite Hempty in Hx. by apply not_elem_of_empty in Hx.
  - right. split.
    + apply set_choose_L in Hne as [x Hx]. exists x. by apply Hunknown.
    + exists (sorted (used ∖ available)), (sorted available).
      split; [done|]. split.
      * eapply sorted_listing_ext; [|apply sorted_sorted_listing]. done.
      * eapply sorted_listing_ext; [|apply sorted_sorted_listing]. done.
Qed.

Lemma join_concat sep parts : join sep parts = String.concat sep parts.
Proof.
  induction parts as [|part parts IH]; [done|].
  destruct parts as [|part' parts]; [done|].
  change (join sep (part :: part' :: parts))
    with (part +:+ sep +:+ join sep (part' :: parts)).
  change (String.concat sep (part :: part' :: parts))
    with (part +:+ sep +:+ String.concat sep (part' :: parts)).
  by rewrite IH.
Qed.

Lemma bracketed_lists_text (a c d shown shown' : string) :
  a +:+ ("[" +:+ shown +:+ "]") +:+ c +:+ d +:+ ("[" +:+ shown' +:+ "]")
  = (a +:+ "[") +:+ shown +:+ ("]" +:+ c +:+ d +:+ "[") +:+ shown' +:+ "]".
Proof. by rewrite !append_assoc. Qed.

(** The message of the f-string, written out. *)
Lemma unknown_variables_message_text
    (repr_str : string -> string) (unknown_list available_list : list string) :
  unknown_variables_message repr_str unknown_list available_list
  = "Unknown template variables: ["
    +:+ String.concat ", " (repr_str <$> unknown_list)
    +:+ "]. Available variables: ["
    +:+ String.concat ", " (repr_str <$> available_list) +:+ "]".
Proof.
  unfold unknown_variables_message, repr_list.
  rewrite !join_concat, bracketed_lists_text. reflexivity.
Qed.

(** C3. Template validation takes as available the names [id] and
    [description] together with the keys of the matrix when there is one,
    collects the placeholder variables used in any string of the document,
    and raises exactly when some used variable is not available.  The message
    is then the text "Unknown template variables: " followed by the bracketed
    list of all unknown variables, the text ". Available variables: " and the
    bracketed list of all available variables, each list sorted
    lexicographically and showing the [repr] of its names separated by a comma
    and a space.  When every used variable is available nothing is raised.
    On the specification's workflow with matrix [dataset] and template
    [/results/{{unknown_var}}/{{dataset}}.xml] the unknown list is
    [unknown_var] and the available list is [dataset], [description], [id]. *)
Theorem validate_template_variables_spec (repr_str : string -> string) :
  (forall workflow : dict pyval,
     matrix_is_mapping workflow ->
     (_validate_template_variables repr_str workflow = Ok ()
      <-> forall x, ~ unknown_variable x workflow)
     /\ ((exists e, _validate_template_variables repr_str workflow = Raise e)
         <-> exists x, unknown_variable x workflow)
     /\ ((exists x, unknown_variable x workflow) ->
         exists unknown_list available_list,
           _validate_template_variables repr_str workflow
           = Raise (WorkflowExecutionError
                      ("Unknown template variables: ["
                       +:+ String.concat ", " (repr_str <$> unknown_list)
                       +:+ "]. Available variables: ["
                       +:+ String.concat ", " (repr_str <$> available_list)
                       +:+ "]"))
           /\ sorted_listing unknown_list
                (fun x => unknown_variable x workflow)
           /\ sorted_listing available_list
                (fun x => available_variable x workflow)))
  /\ _validate_template_variables repr_str invalid_templates_workflow
     = Raise (WorkflowExecutionError
                ("Unknown template variables: [" +:+ repr_str "unknown_var"
                 +:+ "]. Available variables: [" +:+ repr_str "dataset"
                 +:+ ", " +:+ repr_str "description"
                 +:+ ", " +:+ repr_str "id" +:+ "]")).
Proof.
  split.
  2: { transitivity
         (Raise (A:=unit)
            (WorkflowExecutionError
               (unknown_variables_message repr_str
                  ["unknown_var"] ["dataset"; "description"; "id"])));
         [vm_compute; reflexivity|].
       rewrite unknown_variables_message_text.
       change (String.concat ", " (repr_str <$> ["unknown_var"]))
         with (repr_str "unknown_var").
       change (String.concat ", "
                 (repr_str <$> ["dataset"; "description"; "id"]))
         with (repr_str "dataset" +:+ ", " +:+ repr_str "description"
               +:+ ", " +:+ repr_str "id").
       by rewrite !append_assoc. }
  intros workflow Hmap.
  destruct (validate_template_variables_cases repr_str workflow Hmap)
    as [[Hok Hnone]|[[x Hx] (ul & al & Hraise & Hul & Hal)]].
  - split; [done|]. split.
    + rewrite Hok. split; [by intros [e ?]|]. intros [x Hx]. by destruct (Hnone x).
    + intros [x Hx]. by destruct (Hnone x).
  - split; [|split].
    + rewrite Hraise. split; [done|]. intros Hnone. by destruct (Hnone x).
    + split; [by exists x|]. intros _. eexists. exact Hraise.
    + intros _. exists ul, al.
      by rewrite <- unknown_variables_message_text.
Qed.

Lemma invalid_templates_workflow_mapping :
  matrix_is_mapping invalid_templates_workflow.
Proof. intros v Hv. vm_compute in Hv. injection Hv as <-. by eexists. Qed.

Lemma validate_template_variables_spec_witness :
  matrix_is_mapping invalid_templates_workflow
  /\ (exists unknown_list available_list,
        _validate_template_variables repr_plain invalid_templates_workflow
        = Raise (WorkflowExecutionError
                   ("Unknown template variables: ["
                    +:+ String.concat ", " (repr_plain <$> unknown_list)
                    +:+ "]. Available variables: ["
                    +:+ String.concat ", " (repr_plain <$> available_list)
                    +:+ "]"))
        /\ sorted_listing unknown_list
             (fun x => unknown_variable x invalid_templates_workflow)
        /\ sorted_listing available_list
             (fun x => available_variable x invalid_templates_workflow))
  /\ _validate_template_variables repr_plain invalid_templates_workflow
     = Raise (WorkflowExecutionError
                "Unknown template variables: ['unknown_var']. Available variables: ['dataset', 'description', 'id']").
Proof.
  split; [exact invalid_templates_workflow_mapping|]. split.
  - destruct (proj1 (validate_template_variables_spec repr_plain)
                invalid_templates_workflow invalid_templates_workflow_mapping)
      as (_ & Hraises & Hmessage).
    apply Hmessage, Hraises. eexists. vm_compute. reflexivity.
  - exact (proj2 (validate_template_variables_spec repr_plain)).
Defined.

(** ** Workflow parsing *)

(** C6. When the loader or the structural validation raises a
    [WorkflowValidationError], [parse_workflow] raises a
    [WorkflowExecutionError] whose message is "Workflow validation failed: "
    followed by the message of the original error. *)
Theorem parse_workflow_wraps_validation_error
    (repr_str : string -> string)
    (load_workflow_file : string -> result (dict pyval))
    (validate_workflow : dict pyval -> result bool)
    (workflow_path message schema_path : string) :
  load_workflow_file workflow_path
  = Raise (WorkflowValidationError message schema_path)
  \/ (exists workflow,
        load_workflow_file workflow_path = Ok workflow
        /\ validate_workflow workflow
           = Raise (WorkflowValidationError message schema_path)) ->
  parse_workflow repr_str load_workflow_file validate_workflow workflow_path
  = Raise (WorkflowExecutionError ("Workflow validation failed: " +:+ message)).
Proof.
  unfold parse_workflow.
  intros [Hload|(workflow & Hload & Hvalidate)]; rewrite Hload;
    cbn [mbind result_bind]; [done|].
  by rewrite Hvalidate.
Qed.

Lemma parse_workflow_wraps_validation_error_witness :
  parse_workflow repr_plain fake_load_workflow_file fake_validate_workflow
    "/path/to/workflow.yml"
  = Raise (WorkflowExecutionError
             "Workflow validation failed: Missing steps field").
Proof.
  apply (parse_workflow_wraps_validation_error repr_plain
           fake_load_workflow_file fake_validate_workflow
           "/path/to/workflow.yml" "Missing steps field" "").
  right. exists [("name", PStr "Test")]. split; reflexivity.
Defined.

(** ** Task statuses *)

(** C9. [TaskStatus] has exactly ten values, and every value satisfies
    exactly one of [is_success] and [is_error]: [is_success] holds exactly on
    EXECUTES, WOULD_EXECUTE, SKIPS, WOULD_SKIP, IDENTICAL and DIFFERENT,
    [is_error] exactly on the four other values, [is_execution] exactly on
    EXECUTES, IDENTICAL and DIFFERENT, and [is_dry_run] exactly on
    WOULD_EXECUTE and WOULD_SKIP. *)
Theorem task_status_partition :
  length all_statuses = 10
  /\ NoDup all_statuses
  /\ (forall s : TaskStatus, s ∈ all_statuses)
  /\ (forall s, property_count s = 1)
  /\ (forall s, is_error s = negb (is_success s))
  /\ (forall s, is_success s = true
                <-> s ∈ [EXECUTES; WOULD_EXECUTE; SKIPS; WOULD_SKIP;
                         IDENTICAL; DIFFERENT])
  /\ (forall s, is_error s = true
                <-> s ∈ [INVALID_USES; INVALID_PARAMETER; FAILED; TIMED_OUT])
  /\ (forall s, is_execution s = true
                <-> s ∈ [EXECUTES; IDENTICAL; DIFFERENT])
  /\ (forall s, is_dry_run s = true <-> s ∈ [WOULD_EXECUTE; WOULD_SKIP]).
Proof.
  split; [reflexivity|].
  split; [apply (bool_decide_unpack _); vm_compute; exact I|].
  split; [intros s; apply (bool_decide_unpack _); by destruct s|].
  split; [by intros []|].
  split; [by intros []|].
  repeat split; intros H; destruct s; try discriminate H;
    try (apply (bool_decide_unpack _); vm_compute; exact I);
    try reflexivity;
    exfalso; revert H; apply (bool_decide_unpack _); vm_compute; exact I.
Qed.

(** ** Action references *)

(** C5, on the code: [parse_workflow] has no registry to consult.  With a
    loader returning the workflow above and a structural validation that
    accepts it, the workflow is returned although the reference validation
    of an empty registry reports its step as INVALID_USES. *)
Theorem parse_workflow_returns_unresolved_reference :
  parse_workflow repr_plain
    (fun _ => Ok unregistered_action_workflow) (fun _ => Ok true) "test.yml"
  = Ok unregistered_action_workflow
  /\ validate_workflow_actions [] unregistered_action_workflow
     = [(INVALID_USES, "no_such_action")].
Proof. split; vm_compute; reflexivity. Qed.

(** X3. A workflow that loads and passes the structural validation is returned
    unchanged when its template variables validate; otherwise what the
    template validation raises leaves [parse_workflow] as it is, since the
    [except] clause only rewrites a [WorkflowValidationError]. *)
Theorem parse_workflow_after_structural_validation
    (repr_str : string -> string)
    (load_workflow_file : string -> result (dict pyval))
    (validate_workflow : dict pyval -> result bool)
    (workflow_path : string) (workflow : dict pyval) (accepted : bool) :
  load_workflow_file workflow_path = Ok workflow ->
  validate_workflow workflow = Ok accepted ->
  parse_workflow repr_str load_workflow_file validate_workflow workflow_path
  = match _validate_template_variables repr_str workflow with
    | Ok _ => Ok workflow
    | Raise e => Raise e
    end.
Proof.
  intros Hload Hvalidate. unfold parse_workflow.
  rewrite Hload. cbn [mbind result_bind]. rewrite Hvalidate.
  cbn [mbind result_bind].
  unfold _validate_template_variables.
  destruct (dict_get "matrix" workflow) as [[]|]; cbn [py_keys mbind result_bind mret result_ret]; try done;
    by destruct (decide _).
Qed.

Lemma parse_workflow_after_structural_validation_witness :
  parse_workflow repr_plain
    (fun _ => Ok invalid_templates_workflow) (fun _ => Ok true) "test.yml"
  = Raise (WorkflowExecutionError
             "Unknown template variables: ['unknown_var']. Available variables: ['dataset', 'description', 'id']").
Proof.
  rewrite (parse_workflow_after_structural_validation repr_plain
             (fun _ => Ok invalid_templates_workflow) (fun _ => Ok true)
             "test.yml" invalid_templates_workflow true eq_refl eq_refl).
  vm_compute. reflexivity.
Defined.

(* ===================================================================== *)
(** * Further properties of the executor *)
(* ===================================================================== *)

(** ** Matrix expansion: distinct jobs, lookups, adding a variable *)

Lemma flat_map_ext_elem {A B} (f g : A -> list B) (l : list A) :
  (forall x, x ∈ l -> f x = g x) -> flat_map f l = flat_map g l.
Proof.
  induction l as [|a l IH]; intros Hfg; simpl; [done|].
  rewrite (Hfg a) by left. rewrite IH; [done|].
  intros x Hx. apply Hfg. by right.
Qed.

Lemma lex_product_elem_length pools c :
  c ∈ lex_product pools -> length c = length pools.
Proof. intros Hc%elem_of_lex_product. by apply Forall2_length in Hc. Qed.

Lemma NoDup_lex_product pools :
  Forall NoDup pools -> NoDup (lex_product pools).
Proof.
  induction 1 as [|pool pools Hpool _ IH]; cbn [lex_product].
  { apply NoDup_singleton. }
  induction Hpool as [|x pool Hx _ IHpool]; cbn [flat_map].
  { apply NoDup_nil_2. }
  apply NoDup_app. split; [|split; [|exact IHpool]].
  - change (NoDup (cons x <$> lex_product pools)).
    apply NoDup_fmap_2_strong; [|done]. by intros c c' _ _ [= ->].
  - intros c Hc Hc'.
    change (c ∈ cons x <$> lex_product pools) in Hc.
    apply list_elem_of_fmap in Hc as (t & -> & _).
    apply list_elem_of_In, in_flat_map in Hc' as (y & Hy%list_elem_of_In & Hc').
    apply list_elem_of_In in Hc'.
    change ((x :: t) ∈ cons y <$> lex_product pools) in Hc'.
    apply list_elem_of_fmap in Hc' as (t' & [= <- _] & _). done.
Qed.

Lemma zip_keys_inj {V} (keys : list string) (c c' : list V) :
  length c = length keys -> length c' = length keys ->
  zip keys c = zip keys c' -> c = c'.
Proof.
  intros Hc Hc' Heq.
  rewrite <- (snd_zip keys c), <- (snd_zip keys c') by lia.
  by rewrite Heq.
Qed.

(** X4. When no value list of a non-empty matrix holds a value twice, no two
    of the jobs are equal. *)
Theorem expand_matrix_jobs_distinct (matrix : dict (list pyval)) :
  matrix <> [] -> dict_wf matrix ->
  Forall NoDup (dict_values matrix) ->
  exists jobs, expand_matrix matrix = Ok jobs /\ NoDup jobs.
Proof.
  intros Hne Hwf Hvalues. rewrite expand_matrix_nonempty by done.
  eexists. split; [done|].
  apply NoDup_fmap_2_strong; [|by apply NoDup_lex_product].
  intros c c' Hc%lex_product_elem_length Hc'%lex_product_elem_length.
  apply zip_keys_inj; unfold dict_keys, dict_values in *;
    rewrite length_fmap in *; by rewrite ?Hc, ?Hc', ?length_fmap.
Qed.

Ltac distinct_values :=
  repeat (apply NoDup_cons_2;
          [ let H := fresh in
            intros H;
            repeat (apply elem_of_cons in H as [H|H]; [discriminate H|]);
            by apply elem_of_nil in H
          | ]);
  apply NoDup_nil_2.

Lemma expand_matrix_jobs_distinct_witness :
  exists jobs,
    expand_matrix dataset_algorithm_alpha_matrix = Ok jobs /\ NoDup jobs.
Proof.
  apply (expand_matrix_jobs_distinct dataset_algorithm_alpha_matrix).
  - discriminate.
  - unfold dict_wf. apply (bool_decide_unpack _). vm_compute. exact I.
  - repeat (apply List.Forall_cons; [distinct_values|]). apply List.Forall_nil.
Defined.

Lemma dict_get_Forall2 {V W} (R : V -> W -> Prop) (d : dict V) : forall d' : dict W,
  dict_keys d = dict_keys d' ->
  Forall2 R (dict_values d) (dict_values d') ->
  forall k, option_Forall2 R (dict_get k d) (dict_get k d').
Proof.
  unfold dict_keys, dict_values.
  induction d as [|[k1 v] d IH]; intros [|[k2 w] d'] Hkeys Hvalues k;
    simplify_eq/=; [constructor|].
  apply Forall2_cons in Hvalues as [Hvw Hvalues].
  destruct (decide (k = k2)); [by constructor|]. by apply IH.
Qed.

(** X5. Every job of a non-empty matrix can be indexed by the variables of
    the matrix and by nothing else: [job[k]] is defined exactly when
    [matrix[k]] is, and is then one of the values listed there. *)
Theorem expand_matrix_job_lookup (matrix : dict (list pyval)) :
  matrix <> [] -> dict_wf matrix ->
  exists jobs,
    expand_matrix matrix = Ok jobs
    /\ forall (job : dict pyval) (k : string),
         job ∈ jobs ->
         option_Forall2 (fun v vs => v ∈ vs)
           (dict_get k job) (dict_get k matrix).
Proof.
  intros Hne Hwf. rewrite expand_matrix_nonempty by done.
  eexists. split; [done|]. intros job k Hjob.
  apply list_elem_of_fmap in Hjob as (c & -> & Hc).
  assert (Hlen : length c = length matrix).
  { apply lex_product_elem_length in Hc.
    unfold dict_values in Hc. by rewrite length_fmap in Hc. }
  apply dict_get_Forall2; unfold dict_keys, dict_values.
  - apply fst_zip. rewrite length_fmap. lia.
  - rewrite snd_zip by (rewrite length_fmap; lia).
    by apply elem_of_lex_product.
Qed.

Lemma expand_matrix_job_lookup_witness :
  exists jobs,
    expand_matrix algorithm_dataset_matrix = Ok jobs
    /\ forall (job : dict pyval) (k : string),
         job ∈ jobs ->
         option_Forall2 (fun v vs => v ∈ vs)
           (dict_get k job) (dict_get k algorithm_dataset_matrix).
Proof.
  apply (expand_matrix_job_lookup algorithm_dataset_matrix).
  - discriminate.
  - unfold dict_wf. apply (bool_decide_unpack _). vm_compute. exact I.
Defined.

Lemma flat_map_map_cons' {A B C} (f : A -> list B) (g : B -> C) (l : list A) :
  map g (flat_map f l) = flat_map (fun x => map g (f x)) l.
Proof.
  induction l as [|a l IH]; simpl; [done|].
  by rewrite map_app, IH.
Qed.

Lemma flat_map_map_l {A B C} (f : B -> list C) (g : A -> B) (l : list A) :
  flat_map f (map g l) = flat_map (fun x => f (g x)) l.
Proof. induction l as [|a l IH]; simpl; [done|]. by rewrite IH. Qed.

Lemma lex_product_snoc pools pool :
  lex_product (pools ++ [pool])
  = flat_map (fun x => map (fun y => x ++ [y]) pool) (lex_product pools).
Proof.
  rewrite <- !itertools_product_lex. unfold itertools_product.
  by rewrite foldl_snoc.
Qed.

(** X6. A variable added at the end of a matrix is the innermost loop: every
    job of the matrix becomes, in place, one job per value of the new
    variable, in the order of its value list, each extending the old job by
    the new binding.  This holds for the empty matrix too, whose only job is
    the empty one. *)
Theorem expand_matrix_append_variable
    (matrix : dict (list pyval)) (k : string) (vs : list pyval) :
  dict_wf (matrix ++ [(k, vs)]) ->
  exists jobs,
    expand_matrix matrix = Ok jobs
    /\ expand_matrix (matrix ++ [(k, vs)])
       = Ok (flat_map (fun job => map (fun v => job ++ [(k, v)]) vs) jobs).
Proof.
  intros Hwf.
  assert (Hwf' : dict_wf matrix).
  { unfold dict_wf, dict_keys in *. rewrite fmap_app in Hwf.
    by apply NoDup_app in Hwf as [? _]. }
  rewrite (expand_matrix_nonempty (matrix ++ [(k, vs)]))
    by (done || by destruct matrix).
  unfold dict_keys, dict_values. rewrite !fmap_app. simpl.
  rewrite lex_product_snoc.
  change (list_fmap ?A ?B ?f) with (@map A B f).
  rewrite flat_map_map_cons'.
  destruct matrix as [|kv matrix].
  - exists [[]]. split; [done|]. simpl. by rewrite !app_nil_r, map_map.
  - rewrite (expand_matrix_nonempty (kv :: matrix)) by done.
    eexists. split; [done|]. f_equal.
    change (zip ?l <$> ?L) with (map (zip l) L).
    rewrite flat_map_map_l.
    apply flat_map_ext_elem. intros c Hc%lex_product_elem_length.
    rewrite map_map. apply map_ext. intros v.
    unfold dict_keys, dict_values in *. rewrite length_fmap in Hc.
    rewrite zip_with_app by (by rewrite length_fmap). done.
Qed.

Lemma expand_matrix_append_variable_witness :
  exists jobs,
    expand_matrix algorithm_dataset_matrix = Ok jobs
    /\ expand_matrix (algorithm_dataset_matrix ++ [("alpha", [PInt 1; PInt 5])])
       = Ok (flat_map
               (fun job => map (fun v => job ++ [("alpha", v)]) [PInt 1; PInt 5])
               jobs).
Proof.
  apply (expand_matrix_append_variable algorithm_dataset_matrix "alpha").
  unfold dict_wf. apply (bool_decide_unpack _). vm_compute. exact I.
Defined.

(** ** Template variables: round trip, spacing, context *)

Lemma findall_no_open_brace s :
  all_chars not_open_brace s = true -> findall s = [].
Proof.
  induction s as [|c s IH]; [done|]. simpl.
  intros [Hc Hs]%andb_prop.
  rewrite findall_unfold, match_placeholder_first by done. by apply IH.
Qed.

Lemma findall_skip_prefix before s :
  all_chars not_open_brace before = true ->
  findall (before +:+ s) = findall s.
Proof.
  induction before as [|c before IH]; str_simpl; [done|]. simpl.
  intros [Hc Hs]%andb_prop.
  rewrite findall_unfold, match_placeholder_first by done. by apply IH.
Qed.

Lemma findall_placeholder x rest :
  is_identifier x = true ->
  findall ("{{" +:+ x +:+ "}}" +:+ rest) = x :: findall rest.
Proof.
  intros Hid.
  assert (Hm : match_placeholder ("{{" +:+ x +:+ "}}" +:+ rest) = Some (x, rest))
    by (by apply match_placeholder_spec).
  str_simpl. rewrite findall_unfold. by rewrite Hm.
Qed.

(** X7. Writing an identifier between two pairs of braces and extracting
    gives back that identifier and nothing else, whatever brace-free text
    surrounds the placeholder. *)
Theorem extract_placeholder_round_trip (before x after : string) :
  is_identifier x = true ->
  all_chars not_open_brace before = true ->
  all_chars not_open_brace after = true ->
  _extract_template_variables
    (PStr (before +:+ "{{" +:+ x +:+ "}}" +:+ after)) = {[x]}.
Proof.
  intros Hid Hbefore Hafter. cbn [_extract_template_variables].
  rewrite findall_skip_prefix, findall_placeholder by done.
  rewrite findall_no_open_brace by done. simpl. apply union_empty_r_L.
Qed.

Lemma extract_placeholder_round_trip_witness :
  _extract_template_variables (PStr "chart_{{dataset}}.png") = {["dataset"]}.
Proof.
  apply (extract_placeholder_round_trip "chart_" "dataset" ".png");
    reflexivity.
Defined.

Lemma span_ident_stop x d t :
  all_chars ident_char x = true -> ident_char d = false ->
  span_ident (x +:+ String d t) = (x, String d t).
Proof.
  intros Hall Hd. induction x as [|c x IH]; str_simpl; simpl.
  - by rewrite Hd.
  - simpl in Hall. apply andb_prop in Hall as [Hc Hall]. by rewrite Hc, IH.
Qed.

(** X8. A placeholder written with a space inside the braces is not
    recognised: neither a space after the opening braces nor a space between
    the name and the closing braces yields a variable (the rest of the text
    holding no opening brace). *)
Theorem extract_ignores_spaced_placeholder :
  (forall rest : string,
     all_chars not_open_brace rest = true ->
     _extract_template_variables (PStr ("{{ " +:+ rest)) = ∅)
  /\ (forall x rest : string,
        is_identifier x = true ->
        all_chars not_open_brace rest = true ->
        _extract_template_variables (PStr ("{{" +:+ x +:+ " " +:+ rest)) = ∅).
Proof.
  split.
  - intros rest Hrest. cbn [_extract_template_variables]. str_simpl.
    rewrite findall_unfold.
    assert (match_placeholder (String "{" (String "{" (String " " rest))) = None)
      as -> by done.
    rewrite findall_unfold, match_placeholder_second by done.
    rewrite findall_unfold, match_placeholder_first by done.
    by rewrite findall_no_open_brace.
  - intros x rest Hid Hrest. cbn [_extract_template_variables]. str_simpl.
    destruct x as [|c x]; [discriminate|]. simpl in Hid.
    apply andb_prop in Hid as [Hc Hall]. str_simpl.
    rewrite findall_unfold.
    assert (match_placeholder
              (String "{" (String "{" (String c (x +:+ String " " rest)))) = None)
      as ->.
    { unfold match_placeholder. cbn [strip_prefix].
      rewrite !Ascii.eqb_refl, Hc. by rewrite span_ident_stop. }
    rewrite findall_unfold, match_placeholder_second
      by (by apply ident_start_not_open).
    change (String c (x +:+ String " " rest))
      with (String c x +:+ String " " rest).
    rewrite findall_no_open_brace; [done|].
    rewrite all_chars_app. simpl. rewrite Hrest.
    rewrite (ident_start_not_open c Hc).
    by rewrite (all_chars_impl _ _ x ident_char_not_open Hall).
Qed.

Lemma extract_ignores_spaced_placeholder_witness :
  _extract_template_variables (PStr "{{ dataset }}") = ∅
  /\ _extract_template_variables (PStr "{{dataset }}") = ∅.
Proof.
  split.
  - apply (proj1 extract_ignores_spaced_placeholder "dataset }}"). reflexivity.
  - apply (proj2 extract_ignores_spaced_placeholder "dataset" "}}");
      reflexivity.
Defined.

(** X9. Surrounding text never hides a variable: what is extracted from a
    string is extracted from every text that contains the string. *)
Theorem extract_monotone_in_context (before s after : string) :
  _extract_template_variables (PStr s)
  ⊆ _extract_template_variables (PStr (before +:+ s +:+ after)).
Proof.
  intros x. cbn [_extract_template_variables].
  rewrite !elem_of_list_to_set, !findall_spec.
  intros (Hid & b & a & ->). split; [done|].
  exists (before +:+ b), (a +:+ after).
  rewrite !append_assoc. str_simpl. by rewrite ?append_assoc.
Qed.

(** ** The document walk: keys and accumulation *)

(** X10. Only the values of a mapping are walked: two mappings with the same
    values in the same order give the same collected set, whatever their keys
    are, so a placeholder written in a key is never collected. *)
Theorem collect_template_variables_ignores_keys
    (entries entries' : dict pyval) (used : gset string) :
  dict_values entries = dict_values entries' ->
  _collect_template_variables (PDict entries) used
  = _collect_template_variables (PDict entries') used.
Proof.
  unfold dict_values. cbn [_collect_template_variables].
  revert entries' used.
  induction entries as [|[k v] entries IH]; intros [|[k' v'] entries'] used Hvalues;
    simplify_eq/=; [done|]. by apply IH.
Qed.

Lemma collect_template_variables_ignores_keys_witness :
  _collect_template_variables
    (PDict [("{{unknown_var}}", PStr "/results/{{dataset}}.xml")]) ∅
  = _collect_template_variables
      (PDict [("result", PStr "/results/{{dataset}}.xml")]) ∅.
Proof.
  apply (collect_template_variables_ignores_keys
           [("{{unknown_var}}", PStr "/results/{{dataset}}.xml")]
           [("result", PStr "/results/{{dataset}}.xml")]).
  reflexivity.
Defined.

(** X11. The set handed to [_collect_template_variables] is only ever
    extended, and by the same variables whatever it held: the result is the
    union of the given set and of what the document yields from the empty
    set. *)
Theorem collect_template_variables_accumulates
    (doc : pyval) (used : gset string) :
  _collect_template_variables doc used
  = used ∪ _collect_template_variables doc ∅.
Proof.
  apply set_eq. intros x.
  rewrite elem_of_union, !collect_template_variables_spec.
  split.
  - intros [?|?]; [by left | by right; right].
  - intros [?|[Hx|?]]; [by left | by apply not_elem_of_empty in Hx | by right].
Qed.

(** ** Workflow parsing: what is raised and what a success means *)

Lemma validate_template_variables_not_mapping
    (repr_str : string -> string) (workflow : dict pyval) (v : pyval) :
  dict_get "matrix" workflow = Some v ->
  (forall matrix, v <> PDict matrix) ->
  _validate_template_variables repr_str workflow
  = Raise (PyException "AttributeError"
             ("'" +:+ type_name v +:+ "' object has no attribute 'keys'")).
Proof.
  intros Hget Hv. unfold _validate_template_variables. rewrite Hget.
  destruct v; try done. by destruct (Hv entries).
Qed.

(** X12. When the loaded document passes the structural validation but its
    [matrix] is not a mapping, [parse_workflow] raises the [AttributeError]
    of the missing [keys] method, naming the type of the value; the error is
    not turned into a [WorkflowExecutionError]. *)
Theorem parse_workflow_matrix_not_mapping
    (repr_str : string -> string)
    (load_workflow_file : string -> result (dict pyval))
    (validate_workflow : dict pyval -> result bool)
    (workflow_path : string) (workflow : dict pyval) (accepted : bool)
    (v : pyval) :
  load_workflow_file workflow_path = Ok workflow ->
  validate_workflow workflow = Ok accepted ->
  dict_get "matrix" workflow = Some v ->
  (forall matrix, v <> PDict matrix) ->
  parse_workflow repr_str load_workflow_file validate_workflow workflow_path
  = Raise (PyException "AttributeError"
             ("'" +:+ type_name v +:+ "' object has no attribute 'keys'")).
Proof.
  intros Hload Hvalidate Hget Hv. unfold parse_workflow.
  rewrite Hload. cbn [mbind result_bind]. rewrite Hvalidate.
  cbn [mbind result_bind].
  by rewrite (validate_template_variables_not_mapping _ _ v).
Qed.

Lemma parse_workflow_matrix_not_mapping_witness :
  parse_workflow repr_plain
    (fun _ => Ok list_matrix_workflow) (fun _ => Ok true) "test.yml"
  = Raise (PyException "AttributeError"
             "'list' object has no attribute 'keys'").
Proof.
  apply (parse_workflow_matrix_not_mapping repr_plain
           (fun _ => Ok list_matrix_workflow) (fun _ => Ok true) "test.yml"
           list_matrix_workflow true (PList [PStr "asia"; PStr "cancer"]));
    try reflexivity.
  discriminate.
Defined.

(** X13. An error of the loader or of the structural validation that is not
    a [WorkflowValidationError] leaves [parse_workflow] unchanged: the
    [except] clause does not catch it. *)
Theorem parse_workflow_propagates_other_errors
    (repr_str : string -> string)
    (load_workflow_file : string -> result (dict pyval))
    (validate_workflow : dict pyval -> result bool)
    (workflow_path : string) (e : exn) :
  (forall message schema_path, e <> WorkflowValidationError message schema_path) ->
  load_workflow_file workflow_path = Raise e
  \/ (exists workflow,
        load_workflow_file workflow_path = Ok workflow
        /\ validate_workflow workflow = Raise e) ->
  parse_workflow repr_str load_workflow_file validate_workflow workflow_path
  = Raise e.
Proof.
  intros He Hraise. unfold parse_workflow.
  destruct Hraise as [Hload|(workflow & Hload & Hvalidate)]; rewrite Hload;
    cbn [mbind result_bind]; [|rewrite Hvalidate; cbn [mbind result_bind]];
    destruct e; try done; by destruct (He message schema_path).
Qed.

Lemma parse_workflow_propagates_other_errors_witness :
  parse_workflow repr_plain missing_file_loader fake_validate_workflow
    "/path/to/workflow.yml"
  = Raise (PyException "FileNotFoundError" "No such file or directory").
Proof.
  apply (parse_workflow_propagates_other_errors repr_plain
           missing_file_loader fake_validate_workflow "/path/to/workflow.yml").
  - discriminate.
  - left. reflexivity.
Defined.

Lemma validate_template_variables_outcome
    (repr_str : string -> string) (workflow : dict pyval) :
  _validate_template_variables repr_str workflow = Ok ()
  \/ (exists message,
        _validate_template_variables repr_str workflow
        = Raise (WorkflowExecutionError message))
  \/ (exists cls message,
        _validate_template_variables repr_str workflow
        = Raise (PyException cls message)).
Proof.
  unfold _validate_template_variables.
  destruct (dict_get "matrix" workflow) as [[]|];
    cbn [py_keys mbind result_bind mret result_ret];
    try (right; right; by eexists _, _);
    (destruct (decide _); [by left | right; left; by eexists]).
Qed.

(** X14. Whatever the loader and the structural validation do,
    [parse_workflow] never lets a [WorkflowValidationError] out: it returns a
    workflow, raises a [WorkflowExecutionError], or raises an error of
    another class. *)
Theorem parse_workflow_never_raises_validation_error
    (repr_str : string -> string)
    (load_workflow_file : string -> result (dict pyval))
    (validate_workflow : dict pyval -> result bool)
    (workflow_path : string) :
  let outcome :=
    parse_workflow repr_str load_workflow_file validate_workflow workflow_path in
  (exists workflow, outcome = Ok workflow)
  \/ (exists message, outcome = Raise (WorkflowExecutionError message))
  \/ (exists cls message, outcome = Raise (PyException cls message)).
Proof.
  unfold parse_workflow.
  destruct (load_workflow_file workflow_path) as [workflow|e];
    cbn [mbind result_bind].
  2: { destruct e; [right; left | right; left | right; right]; by repeat eexists. }
  destruct (validate_workflow workflow) as [accepted|e];
    cbn [mbind result_bind].
  2: { destruct e; [right; left | right; left | right; right]; by repeat eexists. }
  destruct (validate_template_variables_outcome repr_str workflow)
    as [->|[[message ->]|(cls & message & ->)]]; cbn [mbind result_bind mret result_ret].
  - left. by eexists.
  - right; left. by eexists.
  - right; right. by eexists _, _.
Qed.

Lemma parse_workflow_Ok_validated
    (repr_str : string -> string)
    (load_workflow_file : string -> result (dict pyval))
    (validate_workflow : dict pyval -> result bool)
    (workflow_path : string) (workflow : dict pyval) :
  parse_workflow repr_str load_workflow_file validate_workflow workflow_path
  = Ok workflow ->
  load_workflow_file workflow_path = Ok workflow
  /\ (exists accepted, validate_workflow workflow = Ok accepted)
  /\ _validate_template_variables repr_str workflow = Ok ().
Proof.
  unfold parse_workflow.
  destruct (load_workflow_file workflow_path) as [loaded|e];
    cbn [mbind result_bind]; [|by destruct e].
  destruct (validate_workflow loaded) as [accepted|e] eqn:Hvalidate;
    cbn [mbind result_bind]; [|by destruct e].
  destruct (_validate_template_variables repr_str loaded) as [[]|e] eqn:Htemplates;
    cbn [mbind result_bind mret result_ret]; [|by destruct e].
  intros [= ->]. split; [done|]. split; [by eexists | done].
Qed.

Lemma validate_template_variables_Ok
    (repr_str : string -> string) (workflow : dict pyval) :
  _validate_template_variables repr_str workflow = Ok () ->
  matrix_is_mapping workflow
  /\ forall x, used_variable x (PDict workflow) -> available_variable x workflow.
Proof.
  intros Htemplates.
  assert (Hmap : matrix_is_mapping workflow).
  { intros v Hget. destruct v; try by eexists.
    all: by rewrite (validate_template_variables_not_mapping _ _ _ Hget)
           in Htemplates. }
  split; [done|]. intros x Hused.
  unfold _validate_template_variables in Htemplates.
  destruct (available_variables_spec workflow Hmap) as (available & Heq & Havail).
  rewrite Heq in Htemplates. cbn [mbind result_bind] in Htemplates.
  destruct (decide _) as [Hempty|]; [|done].
  apply Havail. destruct (decide (x ∈ available)) as [|Hnot]; [done|].
  exfalso. apply (not_elem_of_empty (C:=gset string) x). rewrite <- Hempty.
  apply elem_of_difference. split; [|done].
  apply collect_template_variables_spec. by right.
Qed.

(** X15. A workflow returned by [parse_workflow] is the loaded document, was
    accepted by the structural validation, has a mapping as its [matrix] when
    it has one, and uses no placeholder other than [id], [description] and the
    keys of its matrix. *)
Theorem parse_workflow_success
    (repr_str : string -> string)
    (load_workflow_file : string -> result (dict pyval))
    (validate_workflow : dict pyval -> result bool)
    (workflow_path : string) (workflow : dict pyval) :
  parse_workflow repr_str load_workflow_file validate_workflow workflow_path
  = Ok workflow ->
  load_workflow_file workflow_path = Ok workflow
  /\ (exists accepted, validate_workflow workflow = Ok accepted)
  /\ matrix_is_mapping workflow
  /\ forall x, used_variable x (PDict workflow) -> available_variable x workflow.
Proof.
  intros (Hload & Haccepted & Htemplates)%parse_workflow_Ok_validated.
  apply validate_template_variables_Ok in Htemplates as [Hmap Havail].
  split; [exact Hload|]. split; [exact Haccepted|]. split; [exact Hmap|].
  exact Havail.
Qed.

Lemma dict_get_is_Some {V} (k : string) (d : dict V) :
  k ∈ dict_keys d -> is_Some (dict_get k d).
Proof.
  unfold dict_keys. induction d as [|[k' v] d IH]; simpl.
  - by intros ?%elem_of_nil.
  - intros [->|Hin]%elem_of_cons.
    + rewrite decide_True by done. by eexists.
    + destruct (decide (k = k')); [by eexists | by apply IH].
Qed.

Lemma parse_valid_templates_workflow :
  parse_workflow repr_plain
    (fun _ => Ok valid_templates_workflow) (fun _ => Ok true) "test.yml"
  = Ok valid_templates_workflow.
Proof. vm_compute. reflexivity. Qed.

Lemma parse_workflow_success_witness :
  matrix_is_mapping valid_templates_workflow
  /\ forall x,
       used_variable x (PDict valid_templates_workflow) ->
       available_variable x valid_templates_workflow.
Proof.
  apply (parse_workflow_success repr_plain
           (fun _ => Ok valid_templates_workflow) (fun _ => Ok true) "test.yml"
           valid_templates_workflow parse_valid_templates_workflow).
Defined.

(** X16. Validation and expansion fit together: in every job that
    [expand_matrix] makes from the matrix of a workflow returned by
    [parse_workflow], every placeholder used in the workflow other than [id]
    and [description] is bound. *)
Theorem parsed_workflow_jobs_bind_placeholders
    (repr_str : string -> string)
    (load_workflow_file : string -> result (dict pyval))
    (validate_workflow : dict pyval -> result bool)
    (workflow_path : string) (workflow : dict pyval)
    (matrix : dict (list pyval)) (jobs : list (dict pyval))
    (job : dict pyval) (x : string) :
  parse_workflow repr_str load_workflow_file validate_workflow workflow_path
  = Ok workflow ->
  dict_get "matrix" workflow = Some (matrix_document matrix) ->
  dict_wf matrix ->
  expand_matrix matrix = Ok jobs ->
  job ∈ jobs ->
  used_variable x (PDict workflow) ->
  x = "id" \/ x = "description" \/ is_Some (dict_get x job).
Proof.
  intros Hparse Hget Hwf Hexpand Hjob Hused.
  apply parse_workflow_Ok_validated in Hparse as (_ & _ & Htemplates).
  apply validate_template_variables_Ok in Htemplates as [_ Havail].
  destruct (Havail x Hused) as [?|[?|(m & Hm & Hx)]]; [by left | by right; left |].
  right; right.
  rewrite Hget in Hm. injection Hm as <-.
  assert (Hkey : x ∈ dict_keys matrix).
  { unfold dict_keys in *. by rewrite <- list_fmap_compose in Hx. }
  assert (Hne : matrix <> []) by (intros ->; by apply elem_of_nil in Hkey).
  rewrite expand_matrix_nonempty in Hexpand by done.
  injection Hexpand as <-.
  apply list_elem_of_fmap in Hjob as (c & -> & Hc%lex_product_elem_length).
  apply dict_get_is_Some. unfold dict_keys, dict_values in *.
  rewrite length_fmap in Hc. rewrite fst_zip by (rewrite length_fmap; lia).
  done.
Qed.

Lemma valid_templates_workflow_uses_dataset :
  used_variable "dataset" (PDict valid_templates_workflow).
Proof.
  exists "/results/{{id}}/{{dataset}}_{{algorithm}}.xml". split.
  - eapply leaf_value.
    { do 3 apply list_elem_of_further. apply list_elem_of_here. }
    eapply leaf_item; [apply list_elem_of_here|].
    eapply leaf_value.
    { apply list_elem_of_further, list_elem_of_here. }
    eapply leaf_value; [apply list_elem_of_here|].
    apply leaf_str.
  - split; [reflexivity|].
    by exists "/results/{{id}}/", "_{{algorithm}}.xml".
Qed.

Lemma parsed_workflow_jobs_bind_placeholders_witness :
  "dataset" = "id" \/ "dataset" = "description"
  \/ is_Some (dict_get "dataset"
                [("dataset", PStr "asia"); ("algorithm", PStr "pc")]).
Proof.
  apply (parsed_workflow_jobs_bind_placeholders repr_plain
           (fun _ => Ok valid_templates_workflow) (fun _ => Ok true) "test.yml"
           valid_templates_workflow valid_templates_matrix
           [[("dataset", PStr "asia"); ("algorithm", PStr "pc")]]).
  - exact parse_valid_templates_workflow.
  - reflexivity.
  - unfold dict_wf. apply (bool_decide_unpack _). vm_compute. exact I.
  - reflexivity.
  - apply list_elem_of_here.
  - exact valid_templates_workflow_uses_dataset.
Defined.
